(** * port-conflict-resolver: the resolver core of [src/resolver.js]

    A shallow embedding of the class [PortResolver] (bind probe, search
    for a free port, kill and verify, framework suggestions).  The methods
    are programs over the primitives the file calls ([server.listen],
    [server.close], [execPromise], [rl.question], [setTimeout]); a run of
    a program against an operating system yields a completion (returned
    value or thrown error), the trace of primitive calls with their
    answers, and the final state of the system. *)

From Stdlib Require Import ZArith List String Ascii Bool Lia DecimalString Sorted
  Permutation.
From Stdlib Require DecimalPos.
Import ListNotations.
Open Scope string_scope.
Open Scope Z_scope.

(** ** JavaScript strings and numbers

    Strings are sequences of code units below 256; the white space of
    [trim], [\s] and [parseInt] and the letters of [toLowerCase] are the
    ones of that range. *)
Module Js.

Definition code (c : ascii) : N := N_of_ascii c.

Definition is_space (c : ascii) : bool :=
  let n := code c in
  ((9 <=? n) && (n <=? 13) || (n =? 32) || (n =? 160))%N.

Definition is_digit (c : ascii) : bool :=
  let n := code c in ((48 <=? n) && (n <=? 57))%N.

Definition lower_char (c : ascii) : ascii :=
  let n := code c in
  if ((65 <=? n) && (n <=? 90) ||
      (192 <=? n) && (n <=? 222) && negb (n =? 215))%N
  then ascii_of_N (n + 32) else c.

Fixpoint toLowerCase (s : string) : string :=
  match s with
  | EmptyString => EmptyString
  | String c t => String (lower_char c) (toLowerCase t)
  end.

Fixpoint take_while (p : ascii -> bool) (s : string) : string :=
  match s with
  | EmptyString => EmptyString
  | String c t => if p c then String c (take_while p t) else EmptyString
  end.

Fixpoint drop_while (p : ascii -> bool) (s : string) : string :=
  match s with
  | EmptyString => EmptyString
  | String c t => if p c then drop_while p t else s
  end.

Fixpoint rev_string (s acc : string) : string :=
  match s with
  | EmptyString => acc
  | String c t => rev_string t (String c acc)
  end.

Definition trim_start (s : string) : string := drop_while is_space s.

Definition trim_end (s : string) : string :=
  rev_string (drop_while is_space (rev_string s "")) "".

(** [String.prototype.trim] *)
Definition trim (s : string) : string := trim_end (trim_start s).

(** [s.split(',')[0]]: the text before the first separator, the whole
    string when there is none. *)
Definition split_head (sep : ascii) (s : string) : string :=
  take_while (fun c => negb (Ascii.eqb c sep)) s.

Fixpoint strip_prefix (p s : string) : option string :=
  match p, s with
  | EmptyString, _ => Some s
  | String a p', String b s' =>
      if Ascii.eqb a b then strip_prefix p' s' else None
  | String _ _, EmptyString => None
  end.

Definition starts_with (p s : string) : bool :=
  match strip_prefix p s with
  | Some _ => true
  | None => false
  end.

(** Leftmost position at which the anchored matcher [m] succeeds, as
    [String.prototype.match] with a regular expression without flags. *)
Fixpoint search {A : Type} (m : string -> option A) (s : string) : option A :=
  match m s with
  | Some a => Some a
  | None =>
      match s with
      | EmptyString => None
      | String _ t => search m t
      end
  end.

(** The capture group [(\d+)]: the longest run of digits, at least one. *)
Definition digits1 (s : string) : option string :=
  match take_while is_digit s with
  | EmptyString => None
  | d => Some d
  end.

(** [/pid=(\d+)/], first capture group. *)
Definition match_pid (s : string) : option string :=
  search (fun t =>
            match strip_prefix "pid=" t with
            | Some r => digits1 r
            | None => None
            end) s.

(** [/LISTENING\s+(\d+)/], first capture group. *)
Definition match_listening (s : string) : option string :=
  search (fun t =>
            match strip_prefix "LISTENING" t with
            | Some r =>
                match take_while is_space r with
                | EmptyString => None
                | _ => digits1 (drop_while is_space r)
                end
            | None => None
            end) s.

(** A JavaScript number as far as the resolver needs it: [NaN] or an
    integer.  The integer is kept exactly, where the code has a double:
    the two agree up to 2^53 in absolute value, which covers every
    process id and port, and a theorem about the value read from a text
    carries that bound. *)
Inductive number : Type :=
| NaN
| Num (z : Z).

Definition digit_value (c : ascii) : option Z :=
  let n := code c in
  if ((48 <=? n) && (n <=? 57))%N then Some (Z.of_N n - 48)
  else if ((97 <=? n) && (n <=? 102))%N then Some (Z.of_N n - 87)
  else if ((65 <=? n) && (n <=? 70))%N then Some (Z.of_N n - 55)
  else None.

(** Value of the longest prefix of [s] made of digits of [radix]; [None]
    when that prefix is empty. *)
Fixpoint read_digits (radix : Z) (acc : option Z) (s : string) : option Z :=
  match s with
  | EmptyString => acc
  | String c t =>
      match digit_value c with
      | Some d =>
          if d <? radix
          then read_digits radix
                 (Some (match acc with Some a => a * radix + d | None => d end)) t
          else acc
      | None => acc
      end
  end.

(** [parseInt(s)] without a radix: leading white space, an optional
    sign, an optional [0x] prefix, then the digits. *)
Definition parseInt (s : string) : number :=
  let s1 := trim_start s in
  let '(sign, s2) :=
    match s1 with
    | String "-" t => (-1, t)
    | String "+" t => (1, t)
    | _ => (1, s1)
    end in
  let '(radix, s3) :=
    match s2 with
    | String "0" (String "x" t) => (16, t)
    | String "0" (String "X" t) => (16, t)
    | _ => (10, s2)
    end in
  match read_digits radix None s3 with
  | Some v => Num (sign * v)
  | None => NaN
  end.

(** Template literal interpolation of an integer, in plain digits, as a
    double is printed below 10^21. *)
Definition show (z : Z) : string := NilZero.string_of_int (Z.to_int z).

(** [s.split(sep)] for a one-character separator. *)
Fixpoint split_on (sep : ascii) (s : string) : list string :=
  match s with
  | EmptyString => [EmptyString]
  | String c t =>
      if Ascii.eqb c sep then EmptyString :: split_on sep t
      else match split_on sep t with
           | [] => [String c EmptyString]
           | field :: fields => String c field :: fields
           end
  end.

(** [s.split(/\s+/)]: the fields between the runs of white space; a
    run at either end leaves an empty field there.  [field] is the
    current field, reversed; [skipping] says a run is being passed. *)
Fixpoint split_spaces (s : string) (field : string) (skipping : bool)
    : list string :=
  match s with
  | EmptyString => [rev_string field EmptyString]
  | String c t =>
      if is_space c then
        if skipping then split_spaces t EmptyString true
        else rev_string field EmptyString :: split_spaces t EmptyString true
      else split_spaces t (String c field) false
  end.

Definition split_ws (s : string) : list string :=
  split_spaces s EmptyString false.

(** [s.replace(pattern, '')] for a string [pattern]: the leftmost
    occurrence is removed. *)
Fixpoint remove_first (pattern s : string) : string :=
  match strip_prefix pattern s with
  | Some rest => rest
  | None =>
      match s with
      | EmptyString => EmptyString
      | String c t => String c (remove_first pattern t)
      end
  end.

(** [/:(\d+)$/], first capture group. *)
Definition match_port_end (s : string) : option string :=
  search (fun t =>
            match strip_prefix ":" t with
            | Some r =>
                match drop_while is_digit r with
                | EmptyString => digits1 r
                | _ => None
                end
            | None => None
            end) s.

(** [/:(\d+)\s*\(LISTEN\)/], first capture group. *)
Definition match_listen_port (s : string) : option string :=
  search (fun t =>
            match strip_prefix ":" t with
            | Some r =>
                match digits1 r with
                | Some d =>
                    match strip_prefix "(LISTEN)"
                            (drop_while is_space (drop_while is_digit r)) with
                    | Some _ => Some d
                    | None => None
                    end
                | None => None
                end
            | None => None
            end) s.

Definition not_space (c : ascii) : bool := negb (is_space c).

(** [/(TCP|UDP)\s+(\S+)/], both capture groups. *)
Definition match_protocol (s : string) : option (string * string) :=
  search (fun t =>
            let after (proto r : string) :=
              match take_while is_space r with
              | EmptyString => None
              | _ =>
                  match take_while not_space (drop_while is_space r) with
                  | EmptyString => None
                  | word => Some (proto, word)
                  end
              end in
            match strip_prefix "TCP" t with
            | Some r => after "TCP" r
            | None =>
                match strip_prefix "UDP" t with
                | Some r => after "UDP" r
                | None => None
                end
            end) s.

Definition quote : ascii := ascii_of_N 34.
Definition not_quote (c : ascii) : bool := negb (Ascii.eqb c quote).

(** The pattern [users:((] followed by a quoted name, first capture
    group: the name between the quotes, at least one character. *)
Definition match_users (s : string) : option string :=
  search (fun t =>
            match strip_prefix ("users:((" ++ String quote EmptyString) t with
            | Some r =>
                match take_while not_quote r with
                | EmptyString => None
                | word =>
                    match drop_while not_quote r with
                    | EmptyString => None
                    | _ => Some word
                    end
                end
            | None => None
            end) s.

Definition isNaN (n : number) : bool :=
  match n with
  | NaN => true
  | Num _ => false
  end.

(** [n > 0] *)
Definition positive_number (n : number) : bool :=
  match n with
  | NaN => false
  | Num z => 0 <? z
  end.

(** Template literal interpolation of a number. *)
Definition show_number (n : number) : string :=
  match n with
  | NaN => "NaN"
  | Num z => show z
  end.

(** Every character of [s] satisfies [p]. *)
Fixpoint all_chars (p : ascii -> bool) (s : string) : Prop :=
  match s with
  | EmptyString => True
  | String c t => p c = true /\ all_chars p t
  end.

(** A character different from [l]. *)
Definition other_than (l : ascii) (c : ascii) : bool := negb (Ascii.eqb c l).

(** [s] is empty or begins with a character that fails [p]. *)
Definition stops (p : ascii -> bool) (s : string) : Prop :=
  match s with
  | EmptyString => True
  | String c _ => p c = false
  end.

(** A field of a line: not empty, no white space in it. *)
Definition word (w : string) : Prop :=
  w <> EmptyString /\ all_chars not_space w.

(** What separates two fields: white space, at least one character. *)
Definition gap (sp : string) : Prop :=
  sp <> EmptyString /\ all_chars is_space sp.

End Js.

(** ** The primitives of Node.js the resolver calls *)
Module Node.

Inductive JsError : Type :=
| Error (message : string)
| RangeError (message : string)
| TypeError (message : string).

Definition message (e : JsError) : string :=
  match e with
  | Error m | RangeError m | TypeError m => m
  end.

(** What a server hears after [listen]: the ['listening'] event or an
    ['error'] event carrying [err.code]. *)
Inductive ListenOutcome : Type :=
| Listening
| ErrorEvent (code : string).

(** A promisified [exec] resolves with the standard output or rejects
    with an error. *)
Inductive ExecOutcome : Type :=
| ExecOk (stdout : string)
| ExecFail (msg : string).

(** Programs: a result, a thrown error, or a primitive call followed by
    the rest of the program. *)
Inductive Prog (R : Type) : Type :=
| Ret (r : R)
| Throw (e : JsError)
| Listen (port : Z) (host : string) (k : ListenOutcome -> Prog R)
| Close (k : Prog R)
| Exec (command : string) (k : ExecOutcome -> Prog R)
| Question (query : string) (k : string -> Prog R)
| SetTimeout (ms : Z) (k : Prog R).

Arguments Ret {R} r.
Arguments Throw {R} e.
Arguments Listen {R} port host k.
Arguments Close {R} k.
Arguments Exec {R} command k.
Arguments Question {R} query k.
Arguments SetTimeout {R} ms k.

Fixpoint bind {A B : Type} (p : Prog A) (f : A -> Prog B) : Prog B :=
  match p with
  | Ret a => f a
  | Throw e => Throw e
  | Listen port host k => Listen port host (fun o => bind (k o) f)
  | Close k => Close (bind k f)
  | Exec c k => Exec c (fun o => bind (k o) f)
  | Question q k => Question q (fun a => bind (k a) f)
  | SetTimeout ms k => SetTimeout ms (bind k f)
  end.

(** [try { p } catch (error) { h error }] *)
Fixpoint try_catch {A : Type} (p : Prog A) (h : JsError -> Prog A) : Prog A :=
  match p with
  | Ret a => Ret a
  | Throw e => h e
  | Listen port host k => Listen port host (fun o => try_catch (k o) h)
  | Close k => Close (try_catch k h)
  | Exec c k => Exec c (fun o => try_catch (k o) h)
  | Question q k => Question q (fun a => try_catch (k a) h)
  | SetTimeout ms k => SetTimeout ms (try_catch k h)
  end.

Declare Scope prog_scope.
Delimit Scope prog_scope with prog.
Notation "x <- p ;; q" := (bind p (fun x => q))
  (at level 61, p at next level, right associativity) : prog_scope.
Notation "p ;; q" := (bind p (fun _ => q))
  (at level 61, right associativity) : prog_scope.

(** [server.listen(port, host)]: the port is validated before any bind
    is attempted ([ERR_SOCKET_BAD_PORT], a [RangeError] thrown by
    [listen] itself); a valid port is handed to the system. *)
Definition ERR_SOCKET_BAD_PORT : JsError :=
  RangeError "ERR_SOCKET_BAD_PORT".

Definition valid_port (port : Z) : bool := (0 <=? port) && (port <=? 65535).

Definition server_listen (port : Z) (host : string) : Prog ListenOutcome :=
  if valid_port port then Listen port host Ret else Throw ERR_SOCKET_BAD_PORT.

(** [server.close(callback)] *)
Definition server_close : Prog unit := Close (Ret tt).

(** [await execPromise(command)], keeping [stdout]. *)
Definition execPromise (command : string) : Prog string :=
  Exec command (fun o =>
    match o with
    | ExecOk out => Ret out
    | ExecFail m => Throw (Error m)
    end).

(** [rl.question(query, callback)] followed by [rl.close()]. *)
Definition question (query : string) : Prog string := Question query Ret.

(** [await this.delay(ms)], a [setTimeout]. *)
Definition delay (ms : Z) : Prog unit := SetTimeout ms (Ret tt).

(** *** Running a program *)

Inductive Event : Type :=
| EvListen (port : Z) (host : string) (o : ListenOutcome)
| EvClose
| EvExec (command : string) (o : ExecOutcome)
| EvQuestion (query : string) (answer : string)
| EvTimeout (ms : Z).

Inductive Completion (R : Type) : Type :=
| Returned (r : R)
| Thrown (e : JsError).
Arguments Returned {R} r.
Arguments Thrown {R} e.

(** The operating system and the terminal, as a state [W] and the answer
    each primitive gets in a state. *)
Record Env (W : Type) : Type := {
  os_listen : Z -> string -> W -> ListenOutcome * W;
  os_close : W -> W;
  os_exec : string -> W -> ExecOutcome * W;
  os_question : string -> W -> string * W;
  os_timeout : Z -> W -> W
}.
Arguments os_listen {W} _ _ _ _.
Arguments os_close {W} _ _.
Arguments os_exec {W} _ _ _.
Arguments os_question {W} _ _ _.
Arguments os_timeout {W} _ _ _.

Record Run (R W : Type) : Type := {
  completion : Completion R;
  trace : list Event;
  final : W
}.
Arguments Build_Run {R W} _ _ _.
Arguments completion {R W} _.
Arguments trace {R W} _.
Arguments final {R W} _.

Definition after {R W : Type} (ev : Event) (r : Run R W) : Run R W :=
  Build_Run (completion r) (ev :: trace r) (final r).

Definition prepend {R W : Type} (tr : list Event) (r : Run R W) : Run R W :=
  Build_Run (completion r) (tr ++ trace r) (final r).

Fixpoint run {R W : Type} (E : Env W) (p : Prog R) (w : W) : Run R W :=
  match p with
  | Ret r => Build_Run (Returned r) [] w
  | Throw e => Build_Run (Thrown e) [] w
  | Listen port host k =>
      let '(o, w') := os_listen E port host w in
      after (EvListen port host o) (run E (k o) w')
  | Close k => after EvClose (run E k (os_close E w))
  | Exec c k =>
      let '(o, w') := os_exec E c w in
      after (EvExec c o) (run E (k o) w')
  | Question q k =>
      let '(a, w') := os_question E q w in
      after (EvQuestion q a) (run E (k a) w')
  | SetTimeout ms k => after (EvTimeout ms) (run E k (os_timeout E ms w))
  end.

End Node.

(** ** The class [PortResolver] *)
Module PortResolver.
Import Js Node.
Local Open Scope prog_scope.

(** [this.platform = process.platform]; every value other than
    ['win32'] and ['darwin'] takes the branches commented [Linux]. *)
Inductive Platform : Type := win32 | darwin | linux.

(** Check if a port is available (not in use). *)
Definition isPortAvailable (port : Z) : Prog bool :=
  o <- server_listen port "127.0.0.1" ;;
  match o with
  | ErrorEvent code =>
      if (code =? "EADDRINUSE")%string then Ret false else Ret false
  | Listening => server_close ;; Ret true
  end.

Definition default_startPort : Z := 3000.
Definition default_maxAttempts : Z := 100.

Definition exhausted (maxAttempts : Z) : JsError :=
  Error ("Could not find available port within " ++ show maxAttempts
         ++ " attempts").

(** The loop [for (let i = 1; i < maxAttempts; i++)], entered at index
    [i] with [n] iterations left; leaving the loop, by [break] or at its
    end, reaches the [throw]. *)
Fixpoint search_from (startPort maxAttempts : Z) (n : nat) (i : Z) : Prog Z :=
  match n with
  | O => Throw (exhausted maxAttempts)
  | S n' =>
      let port := startPort + i in
      if port >? 65535 then Throw (exhausted maxAttempts)
      else
        available <- isPortAvailable port ;;
        if available then Ret port
        else search_from startPort maxAttempts n' (i + 1)
  end.

(** Find an available port near the requested port. *)
Definition findAvailablePort (startPort maxAttempts : Z) : Prog Z :=
  available <- isPortAvailable startPort ;;
  if available then Ret startPort
  else search_from startPort maxAttempts (Z.to_nat (maxAttempts - 1)) 1.

(** The command [getPortPid] runs. *)
Definition pid_command (platform : Platform) (port : Z) : string :=
  match platform with
  | win32 => "netstat -ano | findstr :" ++ show port ++ " | findstr LISTENING"
  | darwin => "lsof -i :" ++ show port ++ " -t"
  | linux => "ss -tulpn | grep :" ++ show port
  end.

(** What [getPortPid] makes of the command's output: [None] is [null]. *)
Definition parse_pid (platform : Platform) (stdout : string) : option number :=
  match platform with
  | win32 =>
      match match_listening stdout with
      | Some d => Some (parseInt d)
      | None => None
      end
  | darwin =>
      let pid := trim stdout in
      match pid with
      | EmptyString => None
      | _ => Some (parseInt pid)
      end
  | linux =>
      match match_pid stdout with
      | Some d => Some (parseInt d)
      | None => None
      end
  end.

(** Get PID of process using a specific port. *)
Definition getPortPid (platform : Platform) (port : Z) : Prog (option number) :=
  try_catch
    (stdout <- execPromise (pid_command platform port) ;;
     Ret (parse_pid platform stdout))
    (fun _ => Ret None).

(** The test [if (pid)]: [null], [NaN] and [0] are falsy. *)
Definition truthy (v : option number) : option Z :=
  match v with
  | Some (Num z) => if z =? 0 then None else Some z
  | _ => None
  end.

(** [s || 'Unknown'] *)
Definition or_unknown (s : string) : string :=
  match s with
  | EmptyString => "Unknown"
  | _ => s
  end.

(** Helper: ask for user confirmation. *)
Definition askConfirmation (query : string) : Prog bool :=
  answer <- question query ;;
  Ret ((toLowerCase answer =? "y")%string || (toLowerCase answer =? "yes")%string).

(** The object [killPort] returns; [pid] and [name] are absent from the
    two short results. *)
Record KillResult : Type := {
  success : bool;
  message : string;
  pid : option Z;
  name : option string
}.

Definition NotInUse : KillResult :=
  {| success := false; message := "No process found on this port";
     pid := None; name := None |}.

Definition Cancelled : KillResult :=
  {| success := false; message := "Cancelled by user";
     pid := None; name := None |}.

Definition StillRunning (p : Z) (processName : string) : KillResult :=
  {| success := false; message := "Process may still be running";
     pid := Some p; name := Some processName |}.

Definition Resolved (p : Z) (processName : string) : KillResult :=
  {| success := true; message := "Process killed successfully";
     pid := Some p; name := Some processName |}.

Definition Failed (msg : string) (p : Z) (processName : string) : KillResult :=
  {| success := false; message := msg;
     pid := Some p; name := Some processName |}.

Definition name_command (platform : Platform) (p : Z) : string :=
  match platform with
  | win32 => "tasklist /FI " ++ String (ascii_of_N 34) "PID eq " ++ show p
             ++ String (ascii_of_N 34) " /FO CSV /NH"
  | _ => "ps -p " ++ show p ++ " -o comm="
  end.

(** Get process name before killing; errors are ignored. *)
Definition getProcessName (platform : Platform) (p : Z) : Prog string :=
  try_catch
    (stdout <- execPromise (name_command platform p) ;;
     match platform with
     | win32 => Ret (or_unknown (split_head "," (trim stdout)))
     | _ => Ret (or_unknown (trim stdout))
     end)
    (fun _ => Ret "Unknown").

Definition confirmation_query (processName : string) (p port : Z) : string :=
  "Are you sure you want to kill process " ++ processName ++ " (PID: "
  ++ show p ++ ") on port " ++ show port ++ "? (y/N): ".

Definition taskkill (p : Z) : string := "taskkill /PID " ++ show p ++ " /F".
Definition kill_TERM (p : Z) : string := "kill -TERM " ++ show p.
Definition kill_9 (p : Z) : string := "kill -9 " ++ show p.

(** Kill the process: [taskkill] on Windows; elsewhere try SIGTERM
    first, then SIGKILL if SIGTERM fails. *)
Definition terminate (platform : Platform) (p : Z) : Prog unit :=
  match platform with
  | win32 => execPromise (taskkill p) ;; Ret tt
  | _ =>
      try_catch (execPromise (kill_TERM p) ;; Ret tt)
                (fun _ => execPromise (kill_9 p) ;; Ret tt)
  end.

(** The body of the outer [try] of [killPort]: kill the process, wait a
    bit and verify the port is free. *)
Definition kill_and_verify (platform : Platform) (port p : Z)
    (processName : string) : Prog KillResult :=
  terminate platform p ;;
  delay 500 ;;
  stillInUse <- getPortPid platform port ;;
  match truthy stillInUse with
  | Some _ => Ret (StillRunning p processName)
  | None => Ret (Resolved p processName)
  end.

(** Kill process using a specific port. *)
Definition killPort (platform : Platform) (port : Z) (force : bool)
    : Prog KillResult :=
  v <- getPortPid platform port ;;
  match truthy v with
  | None => Ret NotInUse
  | Some p =>
      processName <- getProcessName platform p ;;
      let kill :=
        try_catch (kill_and_verify platform port p processName)
                  (fun error => Ret (Failed (Node.message error) p processName)) in
      if negb force then
        confirmed <- askConfirmation (confirmation_query processName p port) ;;
        if negb confirmed then Ret Cancelled else kill
      else kill
  end.

(** A property read [o[key]] on an object literal whose own properties
    all hold arrays of ports: an own property, a member inherited from
    [Object.prototype] (a function, or the prototype itself for
    [__proto__]), or [undefined]. *)
Inductive Property : Type :=
| Undefined
| PortArray (ports : list Z)
| Inherited (key : string).

Definition object_prototype_keys : list string :=
  [ "constructor"; "__defineGetter__"; "__defineSetter__"; "hasOwnProperty";
    "__lookupGetter__"; "__lookupSetter__"; "isPrototypeOf";
    "propertyIsEnumerable"; "toString"; "valueOf"; "__proto__";
    "toLocaleString" ].

Fixpoint own_property (o : list (string * list Z)) (key : string)
    : option (list Z) :=
  match o with
  | [] => None
  | (k, v) :: rest => if (k =? key)%string then Some v else own_property rest key
  end.

Definition get_property (o : list (string * list Z)) (key : string) : Property :=
  match own_property o key with
  | Some v => PortArray v
  | None =>
      if existsb (String.eqb key) object_prototype_keys
      then Inherited key else Undefined
  end.

(** Suggest a port configuration for common frameworks. *)
Definition getFrameworkSuggestions : list (string * list Z) :=
  [ ("React/Vite", [5173; 5174; 5175; 5180]);
    ("Next.js", [3000; 3001; 3002; 3003]);
    ("Create React App", [3000; 3001; 3002]);
    ("Vue CLI/Vite", [5173; 5174; 5175; 8080]);
    ("Angular", [4200; 4201]);
    ("Express", [3000; 4000; 5000; 8080]);
    ("FastAPI", [8000; 8001; 8080]);
    ("Flask", [5000; 5001; 8000]);
    ("Django", [8000; 8001; 8080]);
    ("Ruby on Rails", [3000; 5000]);
    ("Laravel", [8000; 8001]);
    ("Node.js", [3000; 4000; 5000; 8080]);
    ("NestJS", [3000; 4000; 5000]);
    ("Gatsby", [8000; 8001]);
    ("Hugo", [1313; 1314]);
    ("Spring Boot", [8080; 8081; 8443]);
    ("ASP.NET Core", [5000; 5001; 8080]);
    ("Docker", [2375; 2376; 5000; 8080]);
    ("PostgreSQL", [5432; 5433]);
    ("MySQL", [3306; 3307]);
    ("MongoDB", [27017; 27018; 27019]);
    ("Redis", [6379; 6380]);
    ("Elasticsearch", [9200; 9300]) ].

Definition default_preferred : list Z := [3000; 4000; 5000; 8000].

(** [suggestions[framework] || [3000, 4000, 5000, 8000]]: only
    [undefined] is falsy here. *)
Definition preferred (framework : string) : Property :=
  match get_property getFrameworkSuggestions framework with
  | Undefined => PortArray default_preferred
  | v => v
  end.

(** The loop [for (const port of preferredPorts)] over an array,
    followed by [rest]. *)
Fixpoint first_available (ports : list Z) (rest : Prog Z) : Prog Z :=
  match ports with
  | [] => rest
  | port :: more =>
      available <- isPortAvailable port ;;
      if available then Ret port else first_available more rest
  end.

Definition not_iterable : JsError := TypeError "preferredPorts is not iterable".

(** Find best available port for a specific framework. *)
Definition findPortForFramework (framework : string) : Prog Z :=
  match preferred framework with
  | PortArray preferredPorts =>
      first_available preferredPorts
        (findAvailablePort 3000 default_maxAttempts)
  | _ => Throw not_iterable
  end.

(** One element of the array [killPorts] returns: [{ port, ...result }]. *)
Record PortResult : Type := {
  of_port : Z;
  outcome : KillResult
}.

(** The loop of [killPorts], with the array [results] built so far. *)
Fixpoint killPorts_loop (platform : Platform) (force : bool)
    (results : list PortResult) (ports : list Z) : Prog (list PortResult) :=
  match ports with
  | [] => Ret results
  | port :: more =>
      result <- killPort platform port force ;;
      killPorts_loop platform force
        (results ++ [{| of_port := port; outcome := result |}]) more
  end.

(** Kill all processes on a list of ports. *)
Definition killPorts (platform : Platform) (ports : list Z) (force : bool)
    : Prog (list PortResult) :=
  killPorts_loop platform force [] ports.

(** The object [autoResolve] returns: [{ resolved, port, message }] for a
    free port, [{ resolved, port, pid, ...result }] otherwise, where the
    keys of [result] overwrite the ones before them. *)
Record AutoResult : Type := {
  resolved : bool;
  auto_port : Z;
  auto_pid : option Z;
  auto_success : option bool;
  auto_message : string;
  auto_name : option string
}.

Definition PortFree (port : Z) : AutoResult :=
  {| resolved := false; auto_port := port; auto_pid := None;
     auto_success := None; auto_message := "Port is not in use";
     auto_name := None |}.

(** Auto-resolve port conflict by killing conflicting process. *)
Definition autoResolve (platform : Platform) (port : Z) (force : bool)
    : Prog AutoResult :=
  v <- getPortPid platform port ;;
  match truthy v with
  | None => Ret (PortFree port)
  | Some p =>
      result <- killPort platform port force ;;
      Ret {| resolved := success result;
             auto_port := port;
             auto_pid := match pid result with
                         | Some q => Some q
                         | None => Some p
                         end;
             auto_success := Some (success result);
             auto_message := message result;
             auto_name := name result |}
  end.

(** The loop [for (let port = start; port <= end; port++)] of
    [getUsedPortsInRange], with [n] iterations left. *)
Fixpoint used_loop (n : nat) (port : Z) (usedPorts : list Z) : Prog (list Z) :=
  match n with
  | O => Ret usedPorts
  | S n' =>
      available <- isPortAvailable port ;;
      used_loop n' (port + 1)
        (if negb available then usedPorts ++ [port] else usedPorts)
  end.

(** Get all ports that are in use in a range. *)
Definition getUsedPortsInRange (start finish : Z) : Prog (list Z) :=
  used_loop (Z.to_nat (finish - start + 1)) start [].

End PortResolver.

(** ** A small operating system to run the resolver against *)
Module Sim.
Import Node.

Record World : Type := {
  bound : list Z;          (* ports other processes listen on *)
  denied : list Z;         (* ports this user may not bind *)
  probing : option Z;      (* port held by the probe's own server *)
  execs : list ExecOutcome;(* what the next commands will answer *)
  answers : list string    (* what is typed at the next prompts *)
}.

Definition mem (p : Z) (l : list Z) : bool := existsb (Z.eqb p) l.

Definition listen (port : Z) (host : string) (w : World) : ListenOutcome * World :=
  if mem port (bound w) then (ErrorEvent "EADDRINUSE", w)
  else if mem port (denied w) then (ErrorEvent "EACCES", w)
  else match probing w with
       | Some q =>
           if q =? port then (ErrorEvent "EADDRINUSE", w)
           else (Listening, {| bound := bound w; denied := denied w;
                               probing := Some port; execs := execs w;
                               answers := answers w |})
       | None => (Listening, {| bound := bound w; denied := denied w;
                                probing := Some port; execs := execs w;
                                answers := answers w |})
       end.

Definition close (w : World) : World :=
  {| bound := bound w; denied := denied w; probing := None;
     execs := execs w; answers := answers w |}.

Definition exec (command : string) (w : World) : ExecOutcome * World :=
  match execs w with
  | o :: rest => (o, {| bound := bound w; denied := denied w;
                        probing := probing w; execs := rest;
                        answers := answers w |})
  | [] => (ExecFail ("Command failed: " ++ command), w)
  end.

Definition ask (query : string) (w : World) : string * World :=
  match answers w with
  | a :: rest => (a, {| bound := bound w; denied := denied w;
                        probing := probing w; execs := execs w;
                        answers := rest |})
  | [] => (EmptyString, w)
  end.

Definition env : Env World :=
  {| os_listen := listen; os_close := close; os_exec := exec;
     os_question := ask; os_timeout := fun _ w => w |}.

(** A machine on which the ports [busy] are taken and nothing else
    happens. *)
Definition machine (busy : list Z) : World :=
  {| bound := busy; denied := []; probing := None; execs := []; answers := [] |}.

(** A machine whose next commands answer [outs] and whose user types
    [typed]. *)
Definition scripted (outs : list ExecOutcome) (typed : list string) : World :=
  {| bound := []; denied := []; probing := None; execs := outs;
     answers := typed |}.

(** The line [ss -tulpn] prints for a listener. *)
Definition ss_line : string :=
  "tcp LISTEN 0 511 *:9999 *:* users:((node,pid=4242,fd=18))".

Definition newline : string := String (ascii_of_N 10) EmptyString.

(** The port can be bound on this machine. *)
Definition free (w : World) (port : Z) : bool :=
  negb (mem port (bound w)) && negb (mem port (denied w)).

End Sim.

(** ** Reading traces *)
Module Trace.
Import Js Node PortResolver.

(** What [getPortPid] returns when its command is answered [o]. *)
Definition probe_answer (platform : Platform) (o : ExecOutcome) : option number :=
  match o with
  | ExecOk stdout => parse_pid platform stdout
  | ExecFail _ => None
  end.

(** The process name [killPort] keeps when the name command is answered
    [o]. *)
Definition name_answer (platform : Platform) (o : ExecOutcome) : string :=
  match o with
  | ExecOk stdout =>
      match platform with
      | win32 => or_unknown (split_head "," (trim stdout))
      | _ => or_unknown (trim stdout)
      end
  | ExecFail _ => "Unknown"
  end.

(** [askConfirmation] resolves to this for the typed answer. *)
Definition confirms (answer : string) : bool :=
  (toLowerCase answer =? "y")%string || (toLowerCase answer =? "yes")%string.

(** Commands that signal a process. *)
Definition is_graceful (command : string) : bool :=
  starts_with "kill -TERM " command.
Definition is_forceful (command : string) : bool :=
  starts_with "kill -9 " command || starts_with "taskkill " command.
Definition is_signal (command : string) : bool :=
  is_graceful command || is_forceful command.

(** The signal commands of a trace, in order, with their outcomes. *)
Fixpoint signals (tr : list Event) : list (string * ExecOutcome) :=
  match tr with
  | [] => []
  | EvExec c o :: rest =>
      if is_signal c then (c, o) :: signals rest else signals rest
  | _ :: rest => signals rest
  end.

(** The last signal of the trace was delivered. *)
Definition delivered (tr : list Event) : bool :=
  match last (signals tr) (EmptyString, ExecFail EmptyString) with
  | (_, ExecOk _) => true
  | (_, ExecFail _) => false
  end.

(** The owner found by the first command of a [killPort] trace, and the
    name read by the second. *)
Definition found (platform : Platform) (tr : list Event) : option Z :=
  match tr with
  | EvExec _ o :: _ => truthy (probe_answer platform o)
  | _ => None
  end.

Definition named (platform : Platform) (tr : list Event) : string :=
  match tr with
  | _ :: EvExec _ o :: _ => name_answer platform o
  | _ => "Unknown"
  end.

(** The last two events of a trace when they are a wait followed by a
    command: the delay, the command and the owner its answer shows. *)
Definition reprobe (platform : Platform) (tr : list Event)
    : option (Z * string * option Z) :=
  match rev tr with
  | EvExec c o :: EvTimeout ms :: _ =>
      Some (ms, c, truthy (probe_answer platform o))
  | _ => None
  end.

(** Probes of [ports] that were all refused, with the error codes. *)
Definition refused (ports : list Z) (codes : list string) : list Event :=
  map (fun pc => EvListen (fst pc) "127.0.0.1" (ErrorEvent (snd pc)))
      (combine ports codes).

(** A probe that found the port free and released it. *)
Definition granted (port : Z) : list Event :=
  [EvListen port "127.0.0.1" Listening; EvClose].

(** [start, start + 1, ..., start + n - 1] *)
Fixpoint upfrom (start : Z) (n : nat) : list Z :=
  match n with
  | O => []
  | S n' => start :: upfrom (start + 1) n'
  end.

(** The machine after a series of probes that were all refused. *)
Fixpoint after_refusals {W : Type} (E : Env W) (ports : list Z) (w : W) : W :=
  match ports with
  | [] => w
  | port :: more =>
      after_refusals E more (snd (os_listen E port "127.0.0.1" w))
  end.

(** The signal commands [terminate] issues for process [p], with the
    message of the error it ends in when delivery failed. *)
Inductive Signalled (platform : Platform) (p : Z)
    : list Event -> option string -> Prop :=
| taskkill_done out :
    platform = win32 ->
    Signalled platform p [EvExec (taskkill p) (ExecOk out)] None
| taskkill_failed m :
    platform = win32 ->
    Signalled platform p [EvExec (taskkill p) (ExecFail m)] (Some m)
| term_done out :
    platform <> win32 ->
    Signalled platform p [EvExec (kill_TERM p) (ExecOk out)] None
| term_failed_kill_done m out :
    platform <> win32 ->
    Signalled platform p
      [EvExec (kill_TERM p) (ExecFail m); EvExec (kill_9 p) (ExecOk out)] None
| term_failed_kill_failed m1 m :
    platform <> win32 ->
    Signalled platform p
      [EvExec (kill_TERM p) (ExecFail m1); EvExec (kill_9 p) (ExecFail m)]
      (Some m).

(** The events of the kill phase for the owner [p] named [n], with the
    result [killPort] builds from them. *)
Inductive Killed (platform : Platform) (port p : Z) (n : string)
    : list Event -> KillResult -> Prop :=
| kill_failed sig m :
    Signalled platform p sig (Some m) ->
    Killed platform port p n sig (Failed m p n)
| kill_unconfirmed sig o q :
    Signalled platform p sig None ->
    truthy (probe_answer platform o) = Some q ->
    Killed platform port p n
      (sig ++ [EvTimeout 500; EvExec (pid_command platform port) o])
      (StillRunning p n)
| kill_verified sig o :
    Signalled platform p sig None ->
    truthy (probe_answer platform o) = None ->
    Killed platform port p n
      (sig ++ [EvTimeout 500; EvExec (pid_command platform port) o])
      (Resolved p n).

(** The traces of [killPort] with the result each one ends in. *)
Inductive KillRun (platform : Platform) (port : Z) (force : bool)
    : list Event -> KillResult -> Prop :=
| run_not_in_use o :
    truthy (probe_answer platform o) = None ->
    KillRun platform port force [EvExec (pid_command platform port) o] NotInUse
| run_cancelled o p o2 a :
    truthy (probe_answer platform o) = Some p ->
    force = false ->
    confirms a = false ->
    KillRun platform port force
      [EvExec (pid_command platform port) o;
       EvExec (name_command platform p) o2;
       EvQuestion (confirmation_query (name_answer platform o2) p port) a]
      Cancelled
| run_confirmed o p o2 a tr res :
    truthy (probe_answer platform o) = Some p ->
    force = false ->
    confirms a = true ->
    Killed platform port p (name_answer platform o2) tr res ->
    KillRun platform port force
      (EvExec (pid_command platform port) o
       :: EvExec (name_command platform p) o2
       :: EvQuestion (confirmation_query (name_answer platform o2) p port) a
       :: tr)
      res
| run_forced o p o2 tr res :
    truthy (probe_answer platform o) = Some p ->
    force = true ->
    Killed platform port p (name_answer platform o2) tr res ->
    KillRun platform port force
      (EvExec (pid_command platform port) o
       :: EvExec (name_command platform p) o2
       :: tr)
      res.

(** The traces of [killPorts]: one [killPort] trace per port, in order. *)
Inductive KillRuns (platform : Platform) (force : bool)
    : list Z -> list Event -> list PortResult -> Prop :=
| runs_nil : KillRuns platform force [] [] []
| runs_cons port ports tr trs res results :
    KillRun platform port force tr res ->
    KillRuns platform force ports trs results ->
    KillRuns platform force (port :: ports) (tr ++ trs)
      ({| of_port := port; outcome := res |} :: results).

(** The ports a trace probed, and the ones whose probe was refused. *)
Fixpoint probes (tr : list Event) : list Z :=
  match tr with
  | [] => []
  | EvListen port _ _ :: rest => port :: probes rest
  | _ :: rest => probes rest
  end.

Fixpoint refusals (tr : list Event) : list Z :=
  match tr with
  | [] => []
  | EvListen port _ (ErrorEvent _) :: rest => port :: refusals rest
  | _ :: rest => refusals rest
  end.

(** The ports [findAvailablePort] may probe: at most
    [max 1 maxAttempts] of them, from [start] up to 65535. *)
Definition window (start maxAttempts : Z) : list Z :=
  upfrom start (Z.to_nat (Z.min (Z.max 1 maxAttempts) (65536 - start))).

(** The answers [askConfirmation] takes for a yes. *)
Definition accepted : list string :=
  ["y"; "Y"; "yes"; "yeS"; "yEs"; "yES"; "Yes"; "YeS"; "YEs"; "YES"].

(** What the system makes of the signal commands for process [p] from
    the state [w]: the commands with their answers, the message of the
    error when delivery failed, and the state they leave. *)
Definition signalling {W : Type} (E : Env W) (platform : Platform) (p : Z)
    (w : W) : list Event * option string * W :=
  match platform with
  | win32 =>
      let '(o, w1) := os_exec E (taskkill p) w in
      ([EvExec (taskkill p) o],
       match o with ExecOk _ => None | ExecFail m => Some m end, w1)
  | _ =>
      let '(o, w1) := os_exec E (kill_TERM p) w in
      match o with
      | ExecOk _ => ([EvExec (kill_TERM p) o], None, w1)
      | ExecFail _ =>
          let '(o2, w2) := os_exec E (kill_9 p) w1 in
          ([EvExec (kill_TERM p) o; EvExec (kill_9 p) o2],
           match o2 with ExecOk _ => None | ExecFail m => Some m end, w2)
      end
  end.

(** The run of the kill phase the system's answers call for: [Failed]
    when delivery failed; otherwise the wait, the second probe and the
    verdict read from it. *)
Definition kill_phase {W : Type} (E : Env W) (platform : Platform)
    (port p : Z) (n : string) (w : W) : Run KillResult W :=
  let '(events, failure, w1) := signalling E platform p w in
  match failure with
  | Some m => Build_Run (Returned (Failed m p n)) events w1
  | None =>
      let '(o, w2) := os_exec E (pid_command platform port)
                        (os_timeout E 500 w1) in
      Build_Run
        (Returned (match truthy (probe_answer platform o) with
                   | Some _ => StillRunning p n
                   | None => Resolved p n
                   end))
        (events ++ [EvTimeout 500; EvExec (pid_command platform port) o])
        w2
  end.

End Trace.

(** ** The class [PortScanner] of [src/scanner.js] *)
Module PortScanner.
Import Js.

Definition Platform : Type := PortResolver.Platform.

Definition COMMON_PORTS : list Z :=
  [ 80; 443; 3000; 3001; 3002; 3003; 3004; 3005; 3006; 3007; 3008; 3009;
    3010; 4000; 4001; 4200; 5000; 5001; 5173; 5174; 5175; 5176; 5177;
    5178; 5179; 5180; 5500; 6000; 7000; 8000; 8080; 8081; 8082; 8083;
    8084; 8085; 8086; 8087; 8088; 8089; 8090; 8443; 8888; 9000; 9001;
    9200; 9300; 27017; 27018; 27019; 5432; 6379; 3306; 11211 ].

(** What the scanner's [execPromise] settles to: the standard output,
    or an error with its [stdout] property, which may be missing. *)
Inductive ExecResult : Type :=
| Resolves (stdout : string)
| Rejects (stdout : option string).

(** Scanner programs only run commands. *)
Inductive Scan (R : Type) : Type :=
| Done (r : R)
| Run (command : string) (k : ExecResult -> Scan R).
Arguments Done {R} r.
Arguments Run {R} command k.

Fixpoint then_ {A B : Type} (p : Scan A) (f : A -> Scan B) : Scan B :=
  match p with
  | Done a => f a
  | Run c k => Run c (fun r => then_ (k r) f)
  end.

(** A run against a system that answers commands: the result, the
    commands with their answers, the final state. *)
Fixpoint scan {R W : Type} (os : string -> W -> ExecResult * W)
    (p : Scan R) (w : W) : R * list (string * ExecResult) * W :=
  match p with
  | Done r => (r, [], w)
  | Run c k =>
      let '(a, w') := os c w in
      let '(r, tr, w'') := scan os (k a) w' in
      (r, (c, a) :: tr, w'')
  end.

(** Execute shell command and return output; some commands may return
    non-zero for valid reasons. *)
Definition executeCommand (command : string) : Scan string :=
  Run command (fun r =>
    match r with
    | Resolves stdout => Done stdout
    | Rejects (Some stdout) => Done stdout
    | Rejects None => Done EmptyString
    end).

(** One element of the array of ports; [command] is absent on Windows. *)
Record PortInfo : Type := {
  port : number;
  pid : number;
  protocol : string;
  address : string;
  command : option string;
  state : string
}.

(** Windows format: [TCP 0.0.0.0:3000 0.0.0.0:0 LISTENING 12345]. *)
Definition parse_win32 (line : string) : list PortInfo :=
  let parts := split_ws (trim line) in
  if (5 <=? List.length parts)%nat && (nth 0 parts EmptyString =? "TCP")%string
  then
    let localAddress := nth 1 parts EmptyString in
    match match_port_end localAddress with
    | Some d =>
        let portNumber := parseInt d in
        let pidNumber := parseInt (nth 4 parts EmptyString) in
        if negb (isNaN portNumber) && negb (isNaN pidNumber)
           && positive_number pidNumber
        then [ {| port := portNumber;
                  pid := pidNumber;
                  protocol := "TCP";
                  address := remove_first (":" ++ show_number portNumber)
                                          localAddress;
                  command := None;
                  state := "LISTENING" |} ]
        else []
    | None => []
    end
  else [].

(** macOS format: [node 12345 user 24u IPv4 0x... 0t0 TCP *:3000 (LISTEN)]. *)
Definition parse_darwin (line : string) : list PortInfo :=
  let parts := split_ws (trim line) in
  if (9 <=? List.length parts)%nat then
    let commandName := nth 0 parts EmptyString in
    let pidNumber := parseInt (nth 1 parts EmptyString) in
    match match_listen_port line with
    | Some d =>
        let portNumber := parseInt d in
        let addressMatch := match_protocol line in
        [ {| port := portNumber;
             pid := pidNumber;
             protocol := match addressMatch with
                         | Some (proto, _) => proto
                         | None => "TCP"
                         end;
             address := match addressMatch with
                        | Some (_, addr) => addr
                        | None => "*"
                        end;
             command := Some commandName;
             state := "LISTENING" |} ]
    | None => []
    end
  else [].

(** Linux format: [Netid State Recv-Q Send-Q Local Address:Port Peer
    Address:Port Process]. *)
Definition parse_linux (line : string) : list PortInfo :=
  let parts := split_ws (trim line) in
  if (5 <=? List.length parts)%nat then
    let localAddr := nth 4 parts EmptyString in
    match match_port_end localAddr with
    | Some d =>
        let portNumber := parseInt d in
        let pidNumber := match match_pid line with
                         | Some q => parseInt q
                         | None => Num 0
                         end in
        let commandName := match match_users line with
                           | Some name => name
                           | None => EmptyString
                           end in
        [ {| port := portNumber;
             pid := pidNumber;
             protocol := nth 0 parts EmptyString;
             address := remove_first (":" ++ show_number portNumber) localAddr;
             command := Some commandName;
             state := nth 1 parts EmptyString |} ]
    | None => []
    end
  else [].

Definition parse_line (platform : Platform) (line : string) : list PortInfo :=
  match platform with
  | PortResolver.win32 => parse_win32 line
  | PortResolver.darwin => parse_darwin line
  | PortResolver.linux => parse_linux line
  end.

(** The key of the set [seen]. *)
Definition key (p : PortInfo) : string :=
  show_number (port p) ++ "-" ++ show_number (pid p).

(** Remove duplicates: the loop over [ports] with the set [seen]. *)
Fixpoint unique (seen : list string) (ports : list PortInfo) : list PortInfo :=
  match ports with
  | [] => []
  | p :: rest =>
      if existsb (String.eqb (key p)) seen then unique seen rest
      else p :: unique (key p :: seen) rest
  end.

(** The comparator [(a, b) => a.port - b.port]; a [NaN] difference
    counts as 0. *)
Definition compare_ports (a b : PortInfo) : Z :=
  match port a, port b with
  | Num x, Num y => x - y
  | _, _ => 0
  end.

(** [Array.prototype.sort] is stable: an element goes before the first
    one that the comparator puts strictly after it. *)
Fixpoint insert_sorted (p : PortInfo) (sorted : list PortInfo) : list PortInfo :=
  match sorted with
  | [] => [p]
  | q :: rest =>
      if compare_ports p q <=? 0 then p :: q :: rest
      else q :: insert_sorted p rest
  end.

Fixpoint sort_by_port (ports : list PortInfo) : list PortInfo :=
  match ports with
  | [] => []
  | p :: rest => insert_sorted p (sort_by_port rest)
  end.

(** Parse netstat/lsof output to extract port information. *)
Definition parseNetstatOutput (platform : Platform) (output : string)
    : list PortInfo :=
  let lines := split_on (ascii_of_N 10) (trim output) in
  let ports := flat_map (parse_line platform) lines in
  sort_by_port (unique [] ports).

Definition active_command (platform : Platform) : string :=
  match platform with
  | PortResolver.win32 => "netstat -ano | findstr LISTENING"
  | PortResolver.darwin => "lsof -i -P -n | grep LISTEN"
  | PortResolver.linux => "ss -tulpn | grep LISTEN"
  end.

(** Get list of ports in use based on platform. *)
Definition getActivePorts (platform : Platform) : Scan (list PortInfo) :=
  then_ (executeCommand (active_command platform))
        (fun output => Done (parseNetstatOutput platform output)).

(** [p.port === port] *)
Definition port_is (n : Z) (p : PortInfo) : bool :=
  match port p with
  | Num z => z =? n
  | NaN => false
  end.

(** [p.port >= start && p.port <= end] *)
Definition port_within (start finish : Z) (p : PortInfo) : bool :=
  match port p with
  | Num z => (start <=? z) && (z <=? finish)
  | NaN => false
  end.

(** Scan a specific port. *)
Definition scanPort (platform : Platform) (n : Z) : Scan (list PortInfo) :=
  then_ (getActivePorts platform)
        (fun activePorts => Done (filter (port_is n) activePorts)).

(** Scan a range of ports. *)
Definition scanRange (platform : Platform) (start finish : Z)
    : Scan (list PortInfo) :=
  then_ (getActivePorts platform)
        (fun activePorts => Done (filter (port_within start finish) activePorts)).

(** [commonPortSet.has(p.port)] *)
Definition port_common (p : PortInfo) : bool :=
  match port p with
  | Num z => existsb (Z.eqb z) COMMON_PORTS
  | NaN => false
  end.

(** Scan common development ports. *)
Definition scanCommonPorts (platform : Platform) : Scan (list PortInfo) :=
  then_ (getActivePorts platform)
        (fun activePorts => Done (filter port_common activePorts)).

(** The port of an entry as an integer. *)
Definition port_number (p : PortInfo) : Z :=
  match port p with
  | Num z => z
  | NaN => 0
  end.

(** The port of an entry is a number that is not negative. *)
Definition numbered (e : PortInfo) : Prop :=
  exists z, port e = Num z /\ 0 <= z.

Definition port_le (a b : PortInfo) : Prop := port_number a <= port_number b.

End PortScanner.

Import Js Node PortResolver Trace.

(** ** Runs of composed programs *)
Section Runs.
Context {W : Type} (E : Env W).

Lemma prepend_nil {R} (r : Run R W) : prepend [] r = r.
Proof. destruct r; reflexivity. Qed.

Ltac step_done :=
  match goal with
  | |- context [run ?E ?p ?w] =>
      destruct (run E p w) as [[?|?] ? ?]; reflexivity
  end.

Lemma run_bind {A B} (p : Prog A) (f : A -> Prog B) (w : W) :
  run E (bind p f) w =
  match completion (run E p w) with
  | Returned a => prepend (trace (run E p w)) (run E (f a) (final (run E p w)))
  | Thrown e => Build_Run (Thrown e) (trace (run E p w)) (final (run E p w))
  end.
Proof.
  revert w.
  induction p as [a|e|port host k IH|k IH|c k IH|q k IH|ms k IH]; intros w; simpl.
  - now rewrite prepend_nil.
  - reflexivity.
  - destruct (os_listen E port host w) as [o w']. rewrite IH. step_done.
  - rewrite IH. step_done.
  - destruct (os_exec E c w) as [o w']. rewrite IH. step_done.
  - destruct (os_question E q w) as [a w']. rewrite IH. step_done.
  - rewrite IH. step_done.
Qed.

Lemma run_try_catch {A} (p : Prog A) (h : JsError -> Prog A) (w : W) :
  run E (try_catch p h) w =
  match completion (run E p w) with
  | Returned a => run E p w
  | Thrown e => prepend (trace (run E p w)) (run E (h e) (final (run E p w)))
  end.
Proof.
  revert w.
  induction p as [a|e|port host k IH|k IH|c k IH|q k IH|ms k IH]; intros w; simpl.
  - reflexivity.
  - now rewrite prepend_nil.
  - destruct (os_listen E port host w) as [o w']. rewrite IH. step_done.
  - rewrite IH. step_done.
  - destruct (os_exec E c w) as [o w']. rewrite IH. step_done.
  - destruct (os_question E q w) as [a w']. rewrite IH. step_done.
  - rewrite IH. step_done.
Qed.

(** *** The bind probe *)

Lemma valid_port_iff port : valid_port port = true <-> 0 <= port <= 65535.
Proof. unfold valid_port. rewrite andb_true_iff, !Z.leb_le. tauto. Qed.

Lemma run_isPortAvailable_invalid port w :
  valid_port port = false ->
  run E (isPortAvailable port) w = Build_Run (Thrown ERR_SOCKET_BAD_PORT) [] w.
Proof.
  intros H. unfold isPortAvailable, server_listen. rewrite H. reflexivity.
Qed.

Lemma run_isPortAvailable_error port w code w' :
  valid_port port = true ->
  os_listen E port "127.0.0.1" w = (ErrorEvent code, w') ->
  run E (isPortAvailable port) w =
  Build_Run (Returned false) (refused [port] [code]) w'.
Proof.
  intros H L. unfold isPortAvailable, server_listen. rewrite H. simpl.
  rewrite L. simpl. destruct (code =? "EADDRINUSE")%string; reflexivity.
Qed.

Lemma run_isPortAvailable_listening port w w' :
  valid_port port = true ->
  os_listen E port "127.0.0.1" w = (Listening, w') ->
  run E (isPortAvailable port) w =
  Build_Run (Returned true) (granted port) (os_close E w').
Proof.
  intros H L. unfold isPortAvailable, server_listen. rewrite H. simpl.
  rewrite L. reflexivity.
Qed.

End Runs.

(** ** The search for a free port *)
Section SearchLoop.
Context {W : Type} (E : Env W).

Lemma refused_cons port code ports codes :
  refused (port :: ports) (code :: codes) =
  EvListen port "127.0.0.1" (ErrorEvent code) :: refused ports codes.
Proof. reflexivity. Qed.

(** The loop of [findAvailablePort], entered at a candidate that is not
    negative and at most one past the last port. *)
Lemma search_from_run (start max : Z) (n : nat) :
  forall (i : Z) (w : W),
    0 <= start + i <= 65536 ->
    let r := run E (search_from start max n i) w in
    exists codes : list string,
      let k := Z.of_nat (List.length codes) in
      (completion r = Returned (start + i + k) /\
       trace r = (refused (upfrom (start + i) (List.length codes)) codes
                  ++ granted (start + i + k))%list /\
       (List.length codes < n)%nat /\ start + i + k <= 65535)
      \/
      (completion r = Thrown (exhausted max) /\
       trace r = refused (upfrom (start + i) (List.length codes)) codes /\
       (List.length codes <= n)%nat /\ start + i + k - 1 <= 65535 /\
       (List.length codes = n \/ start + i + k > 65535)).
Proof.
  induction n as [|n IH]; intros i w Hi; cbn zeta.
  - exists []. right. simpl. repeat split; lia.
  - simpl search_from. destruct (start + i >? 65535) eqn:Hgt.
    + exists []. right. simpl. apply Z.gtb_lt in Hgt.
      repeat split; lia.
    + assert (Hle : start + i <= 65535).
      { destruct (Z.gtb_spec (start + i) 65535); [discriminate | lia]. }
      assert (Hv : valid_port (start + i) = true)
        by (apply valid_port_iff; lia).
      rewrite run_bind.
      destruct (os_listen E (start + i) "127.0.0.1" w) as [[|code] w'] eqn:L.
      * rewrite (run_isPortAvailable_listening E _ _ _ Hv L). simpl.
        exists []. left. simpl. rewrite Z.add_0_r.
        repeat split; try lia.
      * rewrite (run_isPortAvailable_error E _ _ _ _ Hv L). simpl.
        destruct (IH (i + 1) w' ltac:(lia)) as [codes H].
        cbn zeta in H. exists (code :: codes). cbn zeta.
        replace (start + (i + 1)) with (start + i + 1) in H by lia.
        simpl List.length. rewrite Nat2Z.inj_succ. simpl upfrom.
        rewrite refused_cons.
        replace (start + i + Z.succ (Z.of_nat (List.length codes)))
          with (start + i + 1 + Z.of_nat (List.length codes)) by lia.
        destruct H as [(Hc & Ht & Hn & Hb) | (Hc & Ht & Hn & Hb & Hs)].
        -- left. rewrite Hc, Ht. repeat split; try lia.
        -- right. rewrite Hc, Ht. repeat split; try lia.
Qed.

(** The whole of [findAvailablePort] from a valid start port. *)
Lemma findAvailablePort_run (start max : Z) (w : W) :
  0 <= start <= 65535 ->
  let r := run E (findAvailablePort start max) w in
  exists codes : list string,
    let k := Z.of_nat (List.length codes) in
    (completion r = Returned (start + k) /\
     trace r = (refused (upfrom start (List.length codes)) codes
                ++ granted (start + k))%list /\
     k <= Z.max 1 max - 1 /\ start + k <= 65535 /\
     (fst (os_listen E start "127.0.0.1" w) = Listening -> codes = []))
    \/
    (completion r = Thrown (exhausted max) /\
     trace r = refused (upfrom start (List.length codes)) codes /\
     1 <= k <= Z.max 1 max /\ start + k - 1 <= 65535 /\
     (k = Z.max 1 max \/ start + k > 65535) /\
     fst (os_listen E start "127.0.0.1" w) <> Listening).
Proof.
  intros Hs. cbn zeta. unfold findAvailablePort.
  assert (Hv : valid_port start = true) by (apply valid_port_iff; lia).
  rewrite run_bind.
  destruct (os_listen E start "127.0.0.1" w) as [[|code] w'] eqn:L.
  - rewrite (run_isPortAvailable_listening E _ _ _ Hv L). simpl.
    exists []. left. simpl. rewrite Z.add_0_r. repeat split; lia.
  - rewrite (run_isPortAvailable_error E _ _ _ _ Hv L). simpl.
    destruct (search_from_run start max (Z.to_nat (max - 1)) 1 w' ltac:(lia))
      as [codes H].
    cbn zeta in H. exists (code :: codes). cbn zeta.
    simpl List.length. rewrite Nat2Z.inj_succ. simpl upfrom.
    rewrite refused_cons.
    replace (start + Z.succ (Z.of_nat (List.length codes)))
      with (start + 1 + Z.of_nat (List.length codes)) by lia.
    destruct H as [(Hc & Ht & Hn & Hb) | (Hc & Ht & Hn & Hb & Hx)].
    + left. rewrite Hc, Ht. repeat split; try lia. discriminate.
    + right. rewrite Hc, Ht. repeat split; try lia. discriminate.
Qed.

End SearchLoop.

(** ** Claims about the bind probe and the search *)

(** C7. For every port in [0, 65535] the probe returns a boolean and
    throws nothing: a bind refused with [EADDRINUSE] gives [false], a
    bind refused with any other code gives [false] as well, and a bind
    that succeeds gives [true]. *)
Theorem isPortAvailable_boolean :
  forall (W : Type) (E : Env W) (w : W) (port : Z),
    0 <= port <= 65535 ->
    let r := run E (isPortAvailable port) w in
    let heard := fst (os_listen E port "127.0.0.1" w) in
    (exists b : bool, completion r = Returned b) /\
    (heard = ErrorEvent "EADDRINUSE" -> completion r = Returned false) /\
    (forall code, heard = ErrorEvent code -> completion r = Returned false) /\
    (heard = Listening -> completion r = Returned true).
Proof.
  intros W E w port Hp. cbn zeta.
  assert (Hv : valid_port port = true) by (apply valid_port_iff; lia).
  destruct (os_listen E port "127.0.0.1" w) as [[|code] w'] eqn:L; simpl.
  - rewrite (run_isPortAvailable_listening E _ _ _ Hv L). simpl.
    repeat split; try discriminate; eauto.
  - rewrite (run_isPortAvailable_error E _ _ _ _ Hv L). simpl.
    repeat split; try discriminate; eauto.
Qed.

(** C2. [findAvailablePort] returns the start port when it is available;
    otherwise it probes [startPort + 1], [startPort + 2], ... in
    increasing order and stops at the first free port, at a candidate
    above 65535, or after [maxAttempts - 1] further probes; a returned
    port lies between the start port and 65535.  [codes] are the error
    codes of the refused probes, so their number counts the attempts
    that failed. *)
Theorem findAvailablePort_search :
  forall (W : Type) (E : Env W) (w : W) (startPort maxAttempts : Z),
    let r := run E (findAvailablePort startPort maxAttempts) w in
    (forall port, completion r = Returned port ->
                  startPort <= port <= 65535) /\
    (0 <= startPort <= 65535 ->
     (fst (os_listen E startPort "127.0.0.1" w) = Listening ->
      completion r = Returned startPort /\ trace r = granted startPort) /\
     exists codes : list string,
       let k := Z.of_nat (List.length codes) in
       (completion r = Returned (startPort + k) /\
        trace r = (refused (upfrom startPort (List.length codes)) codes
                   ++ granted (startPort + k))%list /\
        k <= Z.max 1 maxAttempts - 1 /\ startPort + k <= 65535)
       \/
       (completion r = Thrown (exhausted maxAttempts) /\
        trace r = refused (upfrom startPort (List.length codes)) codes /\
        1 <= k <= Z.max 1 maxAttempts /\ startPort + k - 1 <= 65535 /\
        (k = Z.max 1 maxAttempts \/ startPort + k > 65535))) /\
    (~ 0 <= startPort <= 65535 ->
     completion r = Thrown ERR_SOCKET_BAD_PORT /\ trace r = []).
Proof.
  intros W E w start max. cbn zeta.
  destruct (valid_port start) eqn:Hv.
  - apply valid_port_iff in Hv.
    destruct (findAvailablePort_run E start max w Hv) as [codes H].
    cbn zeta in H. split; [|split].
    + intros port Hr.
      destruct H as [(Hc & _ & _ & Hb & _) | (Hc & _)]; rewrite Hc in Hr.
      * injection Hr as <-. lia.
      * discriminate.
    + intros _. split.
      * intros HL.
        destruct H as [(Hc & Ht & _ & _ & Hnil) | (_ & _ & _ & _ & _ & Hn)].
        -- rewrite (Hnil HL) in Hc, Ht. simpl in Hc, Ht.
           rewrite Z.add_0_r in Hc, Ht. now split.
        -- contradiction.
      * exists codes. cbn zeta.
        destruct H as [(Hc & Ht & Hk & Hb & _) | (Hc & Ht & Hk & Hb & Hx & _)];
          [left | right]; repeat split; auto; lia.
    + intros Hn. contradiction.
  - assert (Hn : ~ 0 <= start <= 65535).
    { intros H. apply valid_port_iff in H. congruence. }
    unfold findAvailablePort. rewrite run_bind.
    rewrite (run_isPortAvailable_invalid E _ _ Hv). simpl.
    split; [|split].
    + discriminate.
    + intros H. contradiction.
    + now split.
Qed.

Lemma findAvailablePort_search_witness :
  3000 <= 3001 <= 65535.
Proof.
  apply (proj1 (findAvailablePort_search Sim.World Sim.env
                  (Sim.machine [3000]) 3000 5) 3001).
  reflexivity.
Defined.

Lemma isPortAvailable_boolean_witness :
  completion (run Sim.env (isPortAvailable 80)
                {| Sim.bound := []; Sim.denied := [80]; Sim.probing := None;
                   Sim.execs := []; Sim.answers := [] |})
  = Returned false.
Proof.
  refine (proj1 (proj2 (proj2 (isPortAvailable_boolean Sim.World Sim.env
            {| Sim.bound := []; Sim.denied := [80]; Sim.probing := None;
               Sim.execs := []; Sim.answers := [] |} 80 _))) "EACCES" _).
  - lia.
  - reflexivity.
Defined.

(** ** The probe on the simulated machine *)
Section OnTheMachine.

Lemma machine_busy (w : Sim.World) (port : Z) :
  0 <= port <= 65535 ->
  Sim.mem port (Sim.bound w) = true ->
  run Sim.env (isPortAvailable port) w =
  Build_Run (Returned false) (refused [port] ["EADDRINUSE"]) w.
Proof.
  intros Hp Hb. apply run_isPortAvailable_error.
  - apply valid_port_iff; lia.
  - simpl. unfold Sim.listen. now rewrite Hb.
Qed.

Lemma machine_free (w : Sim.World) (port : Z) :
  0 <= port <= 65535 ->
  Sim.mem port (Sim.bound w) = false ->
  Sim.mem port (Sim.denied w) = false ->
  Sim.probing w = None ->
  run Sim.env (isPortAvailable port) w =
  Build_Run (Returned true) (granted port) w.
Proof.
  intros Hp Hb Hd Hn. destruct w as [b d pr ex an]. simpl in *. subst pr.
  rewrite (run_isPortAvailable_listening Sim.env port _
             {| Sim.bound := b; Sim.denied := d; Sim.probing := Some port;
                Sim.execs := ex; Sim.answers := an |}).
  - reflexivity.
  - apply valid_port_iff; lia.
  - simpl. unfold Sim.listen. simpl. now rewrite Hb, Hd.
Qed.

(** The loop walks over a run of taken ports without changing the
    machine. *)
Lemma machine_search_busy (start max : Z) (w : Sim.World) (m n : nat) :
  forall i : Z,
    0 <= start + i -> start + i + Z.of_nat n - 1 <= 65535 ->
    (forall j, 0 <= j < Z.of_nat n ->
               Sim.mem (start + i + j) (Sim.bound w) = true) ->
    run Sim.env (search_from start max (n + m) i) w =
    prepend (refused (upfrom (start + i) n) (repeat "EADDRINUSE" n))
            (run Sim.env (search_from start max m (i + Z.of_nat n)) w).
Proof.
  induction n as [|n IH]; intros i Hlo Hhi Hbusy.
  - simpl. rewrite Z.add_0_r. now rewrite prepend_nil.
  - rewrite Nat2Z.inj_succ in *. simpl search_from.
    destruct (Z.gtb_spec (start + i) 65535) as [Hgt|_]; [lia|].
    rewrite run_bind, machine_busy; [| lia |].
    + simpl. rewrite IH; [| lia | lia |].
      * replace (i + 1 + Z.of_nat n) with (i + Z.succ (Z.of_nat n)) by lia.
        replace (start + (i + 1)) with (start + i + 1) by lia.
        destruct (run Sim.env (search_from start max m
                                 (i + Z.succ (Z.of_nat n))) w).
        reflexivity.
      * intros j Hj. replace (start + (i + 1) + j) with (start + i + (j + 1))
          by lia. apply Hbusy. lia.
    + specialize (Hbusy 0 ltac:(lia)). now rewrite Z.add_0_r in Hbusy.
Qed.

End OnTheMachine.

(** C8, as the code has it.  On a machine where the port is neither
    taken by another process nor refused to this user, the probe binds
    the port, releases it and only then answers [true]; the machine is
    left as it was found, and a second probe answers [true] again. *)
Theorem isPortAvailable_repeatable :
  forall (w : Sim.World) (port : Z),
    0 <= port <= 65535 ->
    Sim.mem port (Sim.bound w) = false ->
    Sim.mem port (Sim.denied w) = false ->
    Sim.probing w = None ->
    let first := run Sim.env (isPortAvailable port) w in
    let second := run Sim.env (isPortAvailable port) (final first) in
    completion first = Returned true /\
    trace first = granted port /\
    final first = w /\
    completion second = Returned true /\
    final second = w.
Proof.
  intros w port Hp Hb Hd Hn. cbn zeta.
  rewrite (machine_free w port Hp Hb Hd Hn). simpl.
  rewrite (machine_free w port Hp Hb Hd Hn). simpl. auto.
Qed.

Lemma isPortAvailable_repeatable_witness :
  completion (run Sim.env (isPortAvailable 3000) (Sim.machine [8080]))
  = Returned true.
Proof.
  refine (proj1 (isPortAvailable_repeatable (Sim.machine [8080]) 3000 _ _ _ _)).
  - lia.
  - reflexivity.
  - reflexivity.
  - reflexivity.
Defined.

(** C8 as stated fails: port 80 is bound by nobody, the system refuses
    it to an unprivileged user with [EACCES], and the probe answers
    [false]. *)
Lemma isPortAvailable_unbound_refused :
  let w := {| Sim.bound := []; Sim.denied := [80]; Sim.probing := None;
              Sim.execs := []; Sim.answers := [] |} in
  0 <= 80 <= 65535 /\
  Sim.mem 80 (Sim.bound w) = false /\
  Sim.probing w = None /\
  run Sim.env (isPortAvailable 80) w =
  Build_Run (Returned false) (refused [80] ["EACCES"]) w.
Proof. cbn zeta. repeat split; try lia; reflexivity. Qed.

(** C3, as the code has it.  With ports [p] to [p + 4] taken,
    [findAvailablePort p 5] probes exactly those five ports, never
    [p + 5], and throws the exhausted-search error; it takes six
    attempts to reach and return a free [p + 5]. *)
Theorem findAvailablePort_boundary :
  forall (w : Sim.World) (p : Z),
    0 <= p -> p + 5 <= 65535 ->
    (forall i, 0 <= i <= 4 -> Sim.mem (p + i) (Sim.bound w) = true) ->
    let five := run Sim.env (findAvailablePort p 5) w in
    let six := run Sim.env (findAvailablePort p 6) w in
    completion five = Thrown (exhausted 5) /\
    trace five = refused [p; p + 1; p + 2; p + 3; p + 4]
                         (repeat "EADDRINUSE" 5) /\
    (Sim.mem (p + 5) (Sim.bound w) = false ->
     Sim.mem (p + 5) (Sim.denied w) = false ->
     Sim.probing w = None ->
     completion six = Returned (p + 5) /\
     trace six = (trace five ++ granted (p + 5))%list).
Proof.
  intros w p Hp Hq Hbusy. cbn zeta.
  assert (B0 := Hbusy 0 ltac:(lia)). rewrite Z.add_0_r in B0.
  assert (B : forall j, 0 <= j < Z.of_nat 4 ->
                        Sim.mem (p + 1 + j) (Sim.bound w) = true).
  { intros j Hj. replace (p + 1 + j) with (p + (1 + j)) by lia.
    apply Hbusy. lia. }
  unfold findAvailablePort.
  change (Z.to_nat (5 - 1)) with (4 + 0)%nat.
  change (Z.to_nat (6 - 1)) with (4 + 1)%nat.
  rewrite !run_bind, !machine_busy by (lia || assumption).
  cbn [completion trace final].
  rewrite !machine_search_busy by (lia || assumption).
  change (upfrom (p + 1) 4) with [p + 1; p + 1 + 1; p + 1 + 1 + 1; p + 1 + 1 + 1 + 1].
  replace (p + 1 + 1) with (p + 2) by lia.
  replace (p + 2 + 1) with (p + 3) by lia.
  replace (p + 3 + 1) with (p + 4) by lia.
  simpl.
  split; [reflexivity | split; [reflexivity |]].
  intros Fb Fd Fp.
  destruct (Z.gtb_spec (p + 5) 65535) as [Hgt|_]; [lia|].
  rewrite run_bind, (machine_free w (p + 5)) by (lia || assumption).
  simpl. split; reflexivity.
Qed.

Lemma findAvailablePort_boundary_witness :
  completion (run Sim.env (findAvailablePort 3000 5)
                (Sim.machine [3000; 3001; 3002; 3003; 3004]))
  = Thrown (exhausted 5).
Proof.
  refine (proj1 (findAvailablePort_boundary
                   (Sim.machine [3000; 3001; 3002; 3003; 3004]) 3000 _ _ _)).
  - lia.
  - lia.
  - intros i Hi.
    assert (C : i = 0 \/ i = 1 \/ i = 2 \/ i = 3 \/ i = 4) by lia.
    destruct C as [-> | [-> | [-> | [-> | ->]]]]; reflexivity.
Defined.

(** C3 as stated fails in its first half: with 3000 to 3004 taken and
    3005 free, five attempts end in the exhausted-search error and 3005
    is neither probed nor returned. *)
Lemma findAvailablePort_five_attempts_miss :
  let w := Sim.machine [3000; 3001; 3002; 3003; 3004] in
  Sim.mem 3005 (Sim.bound w) = false /\
  run Sim.env (isPortAvailable 3005) w
    = Build_Run (Returned true) (granted 3005) w /\
  run Sim.env (findAvailablePort 3000 5) w
    = Build_Run (Thrown (exhausted 5))
        (refused [3000; 3001; 3002; 3003; 3004] (repeat "EADDRINUSE" 5)) w /\
  completion (run Sim.env (findAvailablePort 3000 5) w) <> Returned 3005.
Proof. cbn zeta. repeat split; try reflexivity. discriminate. Qed.

(** ** Framework suggestions *)
Section Frameworks.
Context {W : Type} (E : Env W).

Lemma first_available_run (ports : list Z) (rest : Prog Z) :
  Forall (fun port => valid_port port = true) ports ->
  forall w : W,
    let r := run E (first_available ports rest) w in
    exists codes : list string,
      (exists tried port more,
          ports = (tried ++ port :: more)%list /\
          List.length codes = List.length tried /\
          completion r = Returned port /\
          trace r = (refused tried codes ++ granted port)%list)
      \/
      (List.length codes = List.length ports /\
       r = prepend (refused ports codes)
                   (run E rest (after_refusals E ports w))).
Proof.
  induction 1 as [|port more Hv _ IH]; intros w; cbn zeta.
  - exists []. right. split; [reflexivity|]. simpl. now rewrite prepend_nil.
  - simpl first_available. rewrite run_bind.
    destruct (os_listen E port "127.0.0.1" w) as [[|code] w'] eqn:L.
    + rewrite (run_isPortAvailable_listening E _ _ _ Hv L).
      cbn [completion trace final].
      exists []. left. exists [], port, more. simpl. auto.
    + rewrite (run_isPortAvailable_error E _ _ _ _ Hv L).
      cbn [completion trace final].
      destruct (IH w') as [codes H]. cbn zeta in H.
      exists (code :: codes).
      destruct H as [(tried & q & rest' & Hp & Hl & Hc & Ht) | (Hl & Hr)].
      * left. exists (port :: tried), q, rest'. subst more.
        simpl. rewrite Hl. repeat split; auto.
        unfold prepend; simpl. rewrite Ht. reflexivity.
      * right. split; [simpl; congruence|].
        simpl after_refusals. rewrite L. simpl snd. rewrite Hr.
        destruct (run E rest (after_refusals E more w')). reflexivity.
Qed.

End Frameworks.

Lemma own_property_valid (o : list (string * list Z)) :
  forallb (fun kv => forallb valid_port (snd kv)) o = true ->
  forall key ports,
    own_property o key = Some ports ->
    Forall (fun port => valid_port port = true) ports.
Proof.
  induction o as [|[k v] o IH]; simpl; intros H key ports Hk.
  - discriminate.
  - apply andb_true_iff in H as [Hv Ho].
    destruct (k =? key)%string.
    + injection Hk as <-. apply Forall_forall. intros x Hx.
      rewrite forallb_forall in Hv. auto.
    + eauto.
Qed.

(** C9. For a framework of the table, [findPortForFramework] probes the
    listed ports in their order and returns the first one that is
    available; when all are refused it goes on as [findAvailablePort]
    from port 3000 with the default 100 attempts. *)
Theorem findPortForFramework_known :
  forall (W : Type) (E : Env W) (w : W) (framework : string) (ports : list Z),
    own_property getFrameworkSuggestions framework = Some ports ->
    let r := run E (findPortForFramework framework) w in
    exists codes : list string,
      (exists tried port more,
          ports = (tried ++ port :: more)%list /\
          List.length codes = List.length tried /\
          completion r = Returned port /\
          trace r = (refused tried codes ++ granted port)%list)
      \/
      (List.length codes = List.length ports /\
       r = prepend (refused ports codes)
             (run E (findAvailablePort 3000 100) (after_refusals E ports w))).
Proof.
  intros W E w framework ports Hown. cbn zeta.
  unfold findPortForFramework, preferred, get_property. rewrite Hown.
  apply first_available_run.
  now apply (own_property_valid getFrameworkSuggestions eq_refl framework).
Qed.

Lemma findPortForFramework_known_witness :
  exists codes : list string,
    (exists tried port more,
        [3000; 4000; 5000; 8080] = (tried ++ port :: more)%list /\
        List.length codes = List.length tried /\
        completion (run Sim.env (findPortForFramework "Express")
                      (Sim.machine [3000])) = Returned port /\
        trace (run Sim.env (findPortForFramework "Express")
                 (Sim.machine [3000]))
        = (refused tried codes ++ granted port)%list)
    \/
    (List.length codes = List.length [3000; 4000; 5000; 8080] /\
     run Sim.env (findPortForFramework "Express") (Sim.machine [3000])
     = prepend (refused [3000; 4000; 5000; 8080] codes)
         (run Sim.env (findAvailablePort 3000 100)
            (after_refusals Sim.env [3000; 4000; 5000; 8080]
               (Sim.machine [3000])))).
Proof.
  apply (findPortForFramework_known Sim.World Sim.env (Sim.machine [3000])
           "Express" [3000; 4000; 5000; 8080]).
  reflexivity.
Defined.

(** A name that is neither in the table nor a member of
    [Object.prototype] gets the default list [3000, 4000, 5000, 8000]. *)
Lemma findPortForFramework_default :
  forall (W : Type) (E : Env W) (w : W) (framework : string),
    get_property getFrameworkSuggestions framework = Undefined ->
    run E (findPortForFramework framework) w =
    run E (first_available [3000; 4000; 5000; 8000]
             (findAvailablePort 3000 100)) w.
Proof.
  intros W E w framework Hu. unfold findPortForFramework, preferred.
  now rewrite Hu.
Qed.

(** C10.  The name ["constructor"] is not in the table, yet the lookup
    finds the member inherited from [Object.prototype]; the default
    list is skipped and the loop throws a [TypeError] before any probe,
    on every machine. *)
Theorem findPortForFramework_constructor :
  forall (W : Type) (E : Env W) (w : W),
    own_property getFrameworkSuggestions "constructor" = None /\
    preferred "constructor" = Inherited "constructor" /\
    run E (findPortForFramework "constructor") w =
    Build_Run (Thrown (TypeError "preferredPorts is not iterable")) [] w.
Proof. intros W E w. repeat split. Qed.

(** ** Kill and verify *)

Section Kill.
Context {W : Type} (E : Env W).

Lemma run_getPortPid platform port w o w' :
  os_exec E (pid_command platform port) w = (o, w') ->
  run E (getPortPid platform port) w =
  Build_Run (Returned (probe_answer platform o))
            [EvExec (pid_command platform port) o] w'.
Proof.
  intros H. unfold getPortPid, execPromise. simpl. rewrite H.
  destruct o; reflexivity.
Qed.

Lemma run_getProcessName platform p w o w' :
  os_exec E (name_command platform p) w = (o, w') ->
  run E (getProcessName platform p) w =
  Build_Run (Returned (name_answer platform o))
            [EvExec (name_command platform p) o] w'.
Proof.
  intros H. unfold getProcessName, execPromise. simpl. rewrite H.
  destruct o, platform; reflexivity.
Qed.

Lemma run_askConfirmation query w a w' :
  os_question E query w = (a, w') ->
  run E (askConfirmation query) w =
  Build_Run (Returned (confirms a)) [EvQuestion query a] w'.
Proof.
  intros H. unfold askConfirmation, question. simpl. rewrite H. reflexivity.
Qed.

Lemma run_terminate platform p w :
  exists sig failure,
    Signalled platform p sig failure /\
    trace (run E (terminate platform p) w) = sig /\
    completion (run E (terminate platform p) w) =
    match failure with
    | None => Returned tt
    | Some m => Thrown (Error m)
    end.
Proof.
  unfold terminate, execPromise.
  destruct platform; simpl.
  - destruct (os_exec E (taskkill p) w) as [[out|m] w']; eexists _, _.
    + split; [now apply taskkill_done | split; reflexivity].
    + split; [now apply taskkill_failed | split; reflexivity].
  - destruct (os_exec E (kill_TERM p) w) as [[out|m1] w']; simpl.
    + eexists _, _.
      split; [apply term_done; discriminate | split; reflexivity].
    + destruct (os_exec E (kill_9 p) w') as [[out|m] w'']; eexists _, _.
      * split; [apply term_failed_kill_done; discriminate
               | split; reflexivity].
      * split; [apply term_failed_kill_failed; discriminate
               | split; reflexivity].
  - destruct (os_exec E (kill_TERM p) w) as [[out|m1] w']; simpl.
    + eexists _, _.
      split; [apply term_done; discriminate | split; reflexivity].
    + destruct (os_exec E (kill_9 p) w') as [[out|m] w'']; eexists _, _.
      * split; [apply term_failed_kill_done; discriminate
               | split; reflexivity].
      * split; [apply term_failed_kill_failed; discriminate
               | split; reflexivity].
Qed.

Lemma run_kill platform port p n w :
  let r := run E (try_catch (kill_and_verify platform port p n)
                    (fun error => Ret (Failed (Node.message error) p n))) w in
  exists res, completion r = Returned res /\
              Killed platform port p n (trace r) res.
Proof.
  cbn zeta. rewrite run_try_catch. unfold kill_and_verify.
  rewrite run_bind.
  destruct (run_terminate platform p w) as (sig & failure & Hs & Ht & Hc).
  rewrite Hc, Ht. destruct failure as [m|].
  - cbn [completion trace final run prepend Node.message]. rewrite app_nil_r.
    eexists. split; [reflexivity|]. now apply kill_failed.
  - set (w1 := final (run E (terminate platform p) w)).
    rewrite run_bind. cbn [delay run after completion trace final].
    rewrite run_bind.
    destruct (os_exec E (pid_command platform port) (os_timeout E 500 w1))
      as [o w2] eqn:X.
    rewrite (run_getPortPid _ _ _ _ _ X).
    cbn [completion trace final].
    destruct (truthy (probe_answer platform o)) as [q|] eqn:T;
      cbn [completion trace final run prepend app];
      (eexists; split; [reflexivity|]).
    + eapply kill_unconfirmed; eauto.
    + eapply kill_verified; eauto.
Qed.

Lemma killPort_run platform port force w :
  let r := run E (killPort platform port force) w in
  exists res, completion r = Returned res /\
              KillRun platform port force (trace r) res /\
              hd_error (trace r) =
              Some (EvExec (pid_command platform port)
                      (fst (os_exec E (pid_command platform port) w))).
Proof.
  cbn zeta. unfold killPort. rewrite run_bind.
  destruct (os_exec E (pid_command platform port) w) as [o w1] eqn:X.
  rewrite (run_getPortPid _ _ _ _ _ X). cbn [completion trace final fst].
  destruct (truthy (probe_answer platform o)) as [p|] eqn:T.
  - rewrite run_bind.
    destruct (os_exec E (name_command platform p) w1) as [o2 w2] eqn:X2.
    rewrite (run_getProcessName _ _ _ _ _ X2). cbn [completion trace final].
    destruct force; cbn [negb].
    + destruct (run_kill platform port p (name_answer platform o2) w2)
        as (res & Hc & Hk).
      exists res. cbn [prepend completion trace final app].
      split; [exact Hc|]. split; [now apply run_forced | reflexivity].
    + rewrite run_bind.
      destruct (os_question E
                  (confirmation_query (name_answer platform o2) p port) w2)
        as [a w3] eqn:Q.
      rewrite (run_askConfirmation _ _ _ _ Q). cbn [completion trace final].
      destruct (confirms a) eqn:C; cbn [negb].
      * destruct (run_kill platform port p (name_answer platform o2) w3)
          as (res & Hc & Hk).
        exists res. cbn [prepend completion trace final app].
        split; [exact Hc|]. split; [now apply run_confirmed | reflexivity].
      * exists Cancelled. cbn [prepend completion trace final app run].
        split; [reflexivity|]. split; [now apply run_cancelled | reflexivity].
  - exists NotInUse. cbn [prepend completion trace final app run].
    split; [reflexivity|]. split; [now apply run_not_in_use | reflexivity].
Qed.

End Kill.

(** *** Signals in a trace *)

Lemma pid_command_no_signal platform port :
  is_signal (pid_command platform port) = false.
Proof. destruct platform; reflexivity. Qed.

Lemma name_command_no_signal platform p :
  is_signal (name_command platform p) = false.
Proof. destruct platform; reflexivity. Qed.

Lemma taskkill_signal p : is_signal (taskkill p) = true.
Proof. reflexivity. Qed.

Lemma kill_TERM_signal p : is_signal (kill_TERM p) = true.
Proof. reflexivity. Qed.

Lemma kill_9_signal p : is_signal (kill_9 p) = true.
Proof. reflexivity. Qed.

(** [kill -TERM] asks, [kill -9] and [taskkill /F] demand. *)
Lemma signal_kinds p :
  is_graceful (kill_TERM p) = true /\ is_forceful (kill_TERM p) = false /\
  is_graceful (kill_9 p) = false /\ is_forceful (kill_9 p) = true /\
  is_graceful (taskkill p) = false /\ is_forceful (taskkill p) = true.
Proof. repeat split. Qed.

Lemma signals_exec c o rest :
  signals (EvExec c o :: rest) =
  if is_signal c then (c, o) :: signals rest else signals rest.
Proof. reflexivity. Qed.

Lemma signals_app tr1 tr2 :
  signals (tr1 ++ tr2) = (signals tr1 ++ signals tr2)%list.
Proof.
  induction tr1 as [|[] tr1 IH]; simpl; auto.
  destruct (is_signal command); simpl; now rewrite IH.
Qed.

Lemma reprobe_app platform tr ms c o :
  reprobe platform (tr ++ [EvTimeout ms; EvExec c o]) =
  Some (ms, c, truthy (probe_answer platform o)).
Proof. unfold reprobe. rewrite rev_app_distr. reflexivity. Qed.

Ltac signals_simpl :=
  repeat progress
    (rewrite ?signals_app; cbn [signals app];
     rewrite ?pid_command_no_signal, ?name_command_no_signal,
       ?taskkill_signal, ?kill_TERM_signal, ?kill_9_signal).

(** Every case of a [killPort] trace, with the signal part spelled out. *)
Ltac kill_cases H :=
  let K := fresh "K" in
  let S := fresh "S" in
  inversion H as [ ? ? | ? ? ? ? ? ? ? | ? ? ? ? ? ? ? ? ? K | ? ? ? ? ? ? ? K ];
  subst; try (inversion K as [ ? ? S | ? ? ? S ? | ? ? S ? ]; subst;
              inversion S; subst).

(** *** The run as the system's answers decide it *)

Lemma run_terminate_env {W : Type} (E : Env W) platform p (w : W) :
  run E (terminate platform p) w =
  let '(events, failure, w1) := signalling E platform p w in
  Build_Run (match failure with
             | None => Returned tt
             | Some m => Thrown (Error m)
             end) events w1.
Proof.
  unfold terminate, signalling, execPromise.
  destruct platform; simpl.
  - destruct (os_exec E (taskkill p) w) as [[out|m] w1]; reflexivity.
  - destruct (os_exec E (kill_TERM p) w) as [[out|m] w1]; simpl;
      [reflexivity|].
    destruct (os_exec E (kill_9 p) w1) as [[out|m2] w2]; reflexivity.
  - destruct (os_exec E (kill_TERM p) w) as [[out|m] w1]; simpl;
      [reflexivity|].
    destruct (os_exec E (kill_9 p) w1) as [[out|m2] w2]; reflexivity.
Qed.

Lemma run_kill_env {W : Type} (E : Env W) platform port p n (w : W) :
  run E (try_catch (kill_and_verify platform port p n)
           (fun error => Ret (Failed (Node.message error) p n))) w
  = kill_phase E platform port p n w.
Proof.
  rewrite run_try_catch. unfold kill_and_verify, kill_phase.
  rewrite run_bind, run_terminate_env.
  destruct (signalling E platform p w) as [[events [m|]] w1].
  - cbn [completion trace final run prepend Node.message].
    unfold prepend. cbn [completion trace final]. now rewrite app_nil_r.
  - cbn [completion trace final]. rewrite run_bind.
    cbn [delay run after completion trace final]. rewrite run_bind.
    destruct (os_exec E (pid_command platform port) (os_timeout E 500 w1))
      as [o w2] eqn:X.
    rewrite (run_getPortPid E _ _ _ _ _ X). cbn [completion trace final].
    destruct (truthy (probe_answer platform o));
      cbn [completion trace final run prepend app]; reflexivity.
Qed.

(** With an owner found and the kill allowed, [killPort] is the lookups
    followed by the kill phase. *)
Lemma killPort_kills {W : Type} (E : Env W) platform port force (w : W) p :
  truthy (probe_answer platform
            (fst (os_exec E (pid_command platform port) w))) = Some p ->
  let first := os_exec E (pid_command platform port) w in
  let named := os_exec E (name_command platform p) (snd first) in
  let n := name_answer platform (fst named) in
  let asked := os_question E (confirmation_query n p port) (snd named) in
  force = true \/ confirms (fst asked) = true ->
  run E (killPort platform port force) w =
  prepend (EvExec (pid_command platform port) (fst first)
           :: EvExec (name_command platform p) (fst named)
           :: (if force then []
               else [EvQuestion (confirmation_query n p port) (fst asked)]))
          (kill_phase E platform port p n
             (if force then snd named else snd asked)).
Proof.
  intros Hp. cbn zeta. unfold killPort. rewrite run_bind.
  destruct (os_exec E (pid_command platform port) w) as [o w1] eqn:X.
  rewrite (run_getPortPid E _ _ _ _ _ X).
  cbn [completion trace final fst snd] in *. rewrite Hp.
  rewrite run_bind.
  destruct (os_exec E (name_command platform p) w1) as [o2 w2] eqn:X2.
  rewrite (run_getProcessName E _ _ _ _ _ X2).
  cbn [completion trace final fst snd].
  destruct force; cbn [negb].
  - intros _. rewrite run_kill_env.
    destruct (kill_phase E platform port p (name_answer platform o2) w2).
    reflexivity.
  - intros [Hf|Hc]; [discriminate|]. rewrite run_bind.
    destruct (os_question E
                (confirmation_query (name_answer platform o2) p port) w2)
      as [a w3] eqn:Q.
    rewrite (run_askConfirmation E _ _ _ _ Q).
    cbn [completion trace final fst snd] in *. rewrite Hc. cbn [negb].
    rewrite run_kill_env.
    destruct (kill_phase E platform port p (name_answer platform o2) w3).
    reflexivity.
Qed.

(** ** Claims about [killPort] *)

(** C1. [killPort] always returns a result.  When the first probe shows
    an owner [p], the kill is allowed ([force], or a confirming answer)
    and the system accepts a signal command ([taskkill] on Windows;
    elsewhere [kill -TERM], or [kill -9] after [kill -TERM] failed),
    the run goes on with the wait of 500 ms and a second ownership
    probe of the port, put to the system in the state the wait leaves;
    these are its last two events, and the result is [Resolved] when
    that probe shows no owner and [StillRunning] when it shows one,
    with the pid and the name found before the kill.  Read off the
    trace alone: success holds exactly when the trace ends with that
    wait and a probe showing no owner, and a delivered signal is always
    followed by them. *)
Theorem killPort_verifies :
  forall (W : Type) (E : Env W) (w : W)
         (platform : Platform) (port : Z) (force : bool),
    let r := run E (killPort platform port force) w in
    exists res,
      completion r = Returned res /\
      (success res = true <->
       reprobe platform (trace r) = Some (500, pid_command platform port, None)) /\
      (success res = true ->
       exists p, found platform (trace r) = Some p /\
                 res = Resolved p (named platform (trace r))) /\
      (forall q,
          reprobe platform (trace r)
          = Some (500, pid_command platform port, Some q) ->
          exists p, found platform (trace r) = Some p /\
                    res = StillRunning p (named platform (trace r))) /\
      (delivered (trace r) = true ->
       exists owner,
         reprobe platform (trace r)
         = Some (500, pid_command platform port, owner)) /\
      (forall p,
          truthy (probe_answer platform
                    (fst (os_exec E (pid_command platform port) w)))
          = Some p ->
          let first := os_exec E (pid_command platform port) w in
          let named := os_exec E (name_command platform p) (snd first) in
          let n := name_answer platform (fst named) in
          let asked := os_question E (confirmation_query n p port) (snd named) in
          force = true \/ confirms (fst asked) = true ->
          let ready := if force then snd named else snd asked in
          let verified := fun sent : W =>
            let again := os_exec E (pid_command platform port)
                           (os_timeout E 500 sent) in
            (exists before,
                trace r = before ++ [EvTimeout 500;
                                     EvExec (pid_command platform port)
                                            (fst again)])%list /\
            final r = snd again /\
            delivered (trace r) = true /\
            res = match truthy (probe_answer platform (fst again)) with
                  | Some _ => StillRunning p n
                  | None => Resolved p n
                  end in
          let task := os_exec E (taskkill p) ready in
          let term := os_exec E (kill_TERM p) ready in
          let kill := os_exec E (kill_9 p) (snd term) in
          (platform = win32 ->
           forall out, fst task = ExecOk out -> verified (snd task)) /\
          (platform <> win32 ->
           forall out, fst term = ExecOk out -> verified (snd term)) /\
          (platform <> win32 ->
           forall m out, fst term = ExecFail m -> fst kill = ExecOk out ->
                         verified (snd kill))).
Proof.
  intros W E w platform port force. cbn zeta.
  destruct (killPort_run E platform port force w) as (res & Hc & Hk & _).
  exists res. split; [exact Hc|].
  assert (Old :
    (success res = true <->
     reprobe platform (trace (run E (killPort platform port force) w))
     = Some (500, pid_command platform port, None)) /\
    (success res = true ->
     exists p,
       found platform (trace (run E (killPort platform port force) w))
       = Some p /\
       res = Resolved p
               (named platform
                  (trace (run E (killPort platform port force) w)))) /\
    (forall q,
        reprobe platform (trace (run E (killPort platform port force) w))
        = Some (500, pid_command platform port, Some q) ->
        exists p,
          found platform (trace (run E (killPort platform port force) w))
          = Some p /\
          res = StillRunning p
                  (named platform
                     (trace (run E (killPort platform port force) w)))) /\
    (delivered (trace (run E (killPort platform port force) w)) = true ->
     exists owner,
       reprobe platform (trace (run E (killPort platform port force) w))
       = Some (500, pid_command platform port, owner))).
  { clear Hc.
    remember (trace (run E (killPort platform port force) w)) as tr eqn:Htr.
    clear Htr.
    kill_cases Hk;
      unfold delivered;
      repeat rewrite app_comm_cons;
      try rewrite reprobe_app;
      signals_simpl;
      cbn [found named reprobe rev app last success];
      repeat match goal with
             | H : truthy _ = _ |- _ => rewrite H
             end;
      idtac.
    all: try (split; [split; intros; (discriminate || reflexivity || congruence) |]).
    all: try (split; [intros; (discriminate || eauto) |]).
    all: try (split; [intros; (discriminate || eauto) |]).
    all: intros; (discriminate || eauto). }
  destruct Old as (O1 & O2 & O3 & O4).
  split; [exact O1|]. split; [exact O2|]. split; [exact O3|].
  split; [exact O4|]. clear O1 O2 O3 O4 Hk.
  intros p Hp. cbn zeta. intros Hallow.
  rewrite (killPort_kills E platform port force w p Hp Hallow) in *.
  set (first := os_exec E (pid_command platform port) w) in *.
  set (named := os_exec E (name_command platform p) (snd first)) in *.
  set (n := name_answer platform (fst named)) in *.
  set (asked := os_question E (confirmation_query n p port) (snd named)) in *.
  set (ready := if force then snd named else snd asked) in *.
  set (pre := EvExec (pid_command platform port) (fst first) :: _) in *.
  assert (Hpre : signals pre = []).
  { unfold pre. destruct force; signals_simpl; reflexivity. }
  unfold kill_phase, signalling in *.
  split; [|split].
  - intros -> out Ht.
    destruct (os_exec E (taskkill p) ready) as [k wk].
    cbn [fst snd] in *. subst k.
    destruct (os_exec E (pid_command win32 port) (os_timeout E 500 wk))
      as [o3 w5].
    cbn [prepend completion trace final fst snd] in *.
    split; [|split; [reflexivity|split]].
    + eexists. rewrite app_assoc. reflexivity.
    + unfold delivered. signals_simpl. rewrite Hpre. reflexivity.
    + injection Hc as <-. reflexivity.
  - intros Hn out Ht.
    destruct (os_exec E (kill_TERM p) ready) as [k wk].
    cbn [fst snd] in *. subst k.
    destruct platform; [contradiction | |];
      match goal with
      | |- context [os_exec E ?c (os_timeout E 500 wk)] =>
          destruct (os_exec E c (os_timeout E 500 wk)) as [o3 w5]
      end;
      cbn [prepend completion trace final fst snd] in *;
      (split; [|split; [reflexivity|split]]);
      [ eexists; rewrite app_assoc; reflexivity
      | unfold delivered; signals_simpl; rewrite Hpre; reflexivity
      | injection Hc as <-; reflexivity
      | eexists; rewrite app_assoc; reflexivity
      | unfold delivered; signals_simpl; rewrite Hpre; reflexivity
      | injection Hc as <-; reflexivity ].
  - intros Hn m out Ht Hk.
    destruct (os_exec E (kill_TERM p) ready) as [k wk].
    cbn [fst snd] in *. subst k.
    destruct (os_exec E (kill_9 p) wk) as [k2 wk2].
    cbn [fst snd] in *. subst k2.
    destruct platform; [contradiction | |];
      match goal with
      | |- context [os_exec E ?c (os_timeout E 500 wk2)] =>
          destruct (os_exec E c (os_timeout E 500 wk2)) as [o3 w5]
      end;
      cbn [prepend completion trace final fst snd] in *;
      (split; [|split; [reflexivity|split]]);
      [ eexists; rewrite app_assoc; reflexivity
      | unfold delivered; signals_simpl; rewrite Hpre; reflexivity
      | injection Hc as <-; reflexivity
      | eexists; rewrite app_assoc; reflexivity
      | unfold delivered; signals_simpl; rewrite Hpre; reflexivity
      | injection Hc as <-; reflexivity ].
Qed.

(** C4. A signal is sent only when the first probe found an owner and
    either [force] is set or the typed answer confirmed.  When the probe
    finds no owner the result is [NotInUse] and the probe is the only
    event; when [force] is unset and the answer declines, the result is
    [Cancelled] and the question is the last event.  Neither trace holds
    a signal. *)
Theorem killPort_gate :
  forall (W : Type) (E : Env W) (w : W)
         (platform : Platform) (port : Z) (force : bool),
    let r := run E (killPort platform port force) w in
    let answer := fst (os_exec E (pid_command platform port) w) in
    let owner := truthy (probe_answer platform answer) in
    exists res,
      completion r = Returned res /\
      found platform (trace r) = owner /\
      (signals (trace r) <> [] ->
       (exists p, owner = Some p) /\
       (force = true \/
        exists query a, In (EvQuestion query a) (trace r) /\ confirms a = true)) /\
      (owner = None ->
       res = NotInUse /\ signals (trace r) = [] /\
       trace r = [EvExec (pid_command platform port) answer]) /\
      (force = true -> forall query a, ~ In (EvQuestion query a) (trace r)) /\
      (forall query a,
          In (EvQuestion query a) (trace r) -> confirms a = false ->
          res = Cancelled /\ signals (trace r) = [] /\
          exists o2 p,
            owner = Some p /\
            trace r = [EvExec (pid_command platform port) answer;
                       EvExec (name_command platform p) o2;
                       EvQuestion query a]).
Proof.
  intros W E w platform port force. cbn zeta.
  destruct (killPort_run E platform port force w) as (res & Hc & Hk & Hh).
  exists res. split; [exact Hc|]. clear Hc.
  remember (trace (run E (killPort platform port force) w)) as tr eqn:Htr.
  clear Htr.
  remember (fst (os_exec E (pid_command platform port) w)) as answer eqn:Ha.
  clear Ha.
  kill_cases Hk;
    injection Hh as <-;
    repeat rewrite app_comm_cons;
    signals_simpl;
    cbn [found In];
    repeat match goal with
           | H : truthy _ = _ |- _ => rewrite H
           end.
  all: split; [reflexivity|].
  all: split; [intros Hs; try congruence; split; eauto 8 using in_eq, in_cons |].
  all: split; [intros Hn; try discriminate; auto |].
  all: split; [ intros Hf; try discriminate; intros query a' Hin;
                repeat (destruct Hin as [Hin|Hin]; try discriminate);
                try (apply in_app_or in Hin; destruct Hin as [Hin|Hin]);
                repeat (destruct Hin as [Hin|Hin]; try discriminate);
                auto |].
  all: intros query a' Hin Hd;
       repeat (destruct Hin as [Hin|Hin]; try discriminate);
       try (apply in_app_or in Hin; destruct Hin as [Hin|Hin]);
       repeat (destruct Hin as [Hin|Hin]; try discriminate);
       try contradiction;
       try (injection Hin as <- <-; try congruence; eauto 8).
Qed.

(** C5. When the first probe shows an owner [p] and the kill is allowed
    ([force], or a confirming answer), the signal commands the run puts
    to the system are decided by the system's answers: on Windows
    [taskkill /F] alone, where no gentler command is tried; elsewhere
    [kill -TERM] alone when the system accepts it, and [kill -TERM]
    followed by [kill -9] when it fails.  When the last of them fails
    with message [m], the result is [Failed] with [m], the pid and the
    process name, and nothing further is asked of the system.  Read off
    the trace alone: its signals are none or one of these three
    shapes, for the owner the first probe found. *)
Theorem killPort_escalates :
  forall (W : Type) (E : Env W) (w : W)
         (platform : Platform) (port : Z) (force : bool),
    let r := run E (killPort platform port force) w in
    exists res,
      completion r = Returned res /\
      (signals (trace r) = [] \/
       exists p,
         found platform (trace r) = Some p /\
         ((platform = win32 /\
           exists o, signals (trace r) = [(taskkill p, o)]) \/
          (platform <> win32 /\
           exists out, signals (trace r) = [(kill_TERM p, ExecOk out)]) \/
          (platform <> win32 /\
           exists m o, signals (trace r)
                       = [(kill_TERM p, ExecFail m); (kill_9 p, o)])) /\
         (forall c m,
             last (signals (trace r)) (EmptyString, ExecOk EmptyString)
             = (c, ExecFail m) ->
             res = Failed m p (named platform (trace r)))) /\
      (forall p,
          truthy (probe_answer platform
                    (fst (os_exec E (pid_command platform port) w)))
          = Some p ->
          let first := os_exec E (pid_command platform port) w in
          let named := os_exec E (name_command platform p) (snd first) in
          let n := name_answer platform (fst named) in
          let asked := os_question E (confirmation_query n p port) (snd named) in
          force = true \/ confirms (fst asked) = true ->
          let ready := if force then snd named else snd asked in
          let task := os_exec E (taskkill p) ready in
          let term := os_exec E (kill_TERM p) ready in
          let kill := os_exec E (kill_9 p) (snd term) in
          (platform = win32 ->
           signals (trace r) = [(taskkill p, fst task)] /\
           (forall m, fst task = ExecFail m ->
                      res = Failed m p n /\ final r = snd task)) /\
          (platform <> win32 ->
           (forall out, fst term = ExecOk out ->
                        signals (trace r) = [(kill_TERM p, fst term)]) /\
           (forall m1, fst term = ExecFail m1 ->
                       signals (trace r) = [(kill_TERM p, fst term);
                                            (kill_9 p, fst kill)] /\
                       (forall m, fst kill = ExecFail m ->
                                  res = Failed m p n /\
                                  final r = snd kill)))).
Proof.
  intros W E w platform port force. cbn zeta.
  destruct (killPort_run E platform port force w) as (res & Hc & Hk & _).
  exists res. split; [exact Hc|]. split.
  { clear Hc.
    remember (trace (run E (killPort platform port force) w)) as tr eqn:Htr.
    clear Htr.
    kill_cases Hk;
      repeat rewrite app_comm_cons;
      signals_simpl;
      cbn [found named last];
      repeat match goal with
             | H : truthy _ = _ |- _ => rewrite H
             end.
    all: try (left; reflexivity).
    all: right; eexists; split; [reflexivity|].
    all: split; [ eauto 8 | intros c m' Hl; try discriminate;
                            injection Hl as <- <-; reflexivity ]. }
  clear Hk.
  intros p Hp. cbn zeta. intros Hallow.
  rewrite (killPort_kills E platform port force w p Hp Hallow) in *.
  set (first := os_exec E (pid_command platform port) w) in *.
  set (named := os_exec E (name_command platform p) (snd first)) in *.
  set (n := name_answer platform (fst named)) in *.
  set (asked := os_question E (confirmation_query n p port) (snd named)) in *.
  set (ready := if force then snd named else snd asked) in *.
  set (pre := EvExec (pid_command platform port) (fst first) :: _) in *.
  assert (Hpre : signals pre = []).
  { unfold pre. destruct force; signals_simpl; reflexivity. }
  unfold kill_phase, signalling in *.
  split.
  - intros ->.
    destruct (os_exec E (taskkill p) ready) as [k wk].
    cbn [fst snd] in *.
    destruct k as [out|m0].
    + destruct (os_exec E (pid_command win32 port) (os_timeout E 500 wk))
        as [o3 w5].
      cbn [prepend completion trace final fst snd] in *.
      split; [signals_simpl; rewrite Hpre; reflexivity | discriminate].
    + cbn [prepend completion trace final fst snd] in *.
      split; [signals_simpl; rewrite Hpre; reflexivity |].
      intros m Hm. injection Hm as <-. injection Hc as <-.
      split; reflexivity.
  - intros Hn.
    destruct (os_exec E (kill_TERM p) ready) as [k wk].
    cbn [fst snd] in *.
    destruct platform; [contradiction | |];
      (destruct k as [out|m0];
       [ match goal with
         | |- context [os_exec E ?c (os_timeout E 500 wk)] =>
             destruct (os_exec E c (os_timeout E 500 wk)) as [o3 w5]
         end;
         cbn [prepend completion trace final fst snd] in *;
         split; [ intros out' _; signals_simpl; rewrite Hpre; reflexivity
                | discriminate ]
       | destruct (os_exec E (kill_9 p) wk) as [k2 wk2];
         cbn [fst snd] in *;
         split; [discriminate|];
         intros m1 _;
         destruct k2 as [out2|m2];
         [ match goal with
           | |- context [os_exec E ?c (os_timeout E 500 wk2)] =>
               destruct (os_exec E c (os_timeout E 500 wk2)) as [o3 w5]
           end;
           cbn [prepend completion trace final fst snd] in *;
           split; [ signals_simpl; rewrite Hpre; reflexivity | discriminate ]
         | cbn [prepend completion trace final fst snd] in *;
           split; [ signals_simpl; rewrite Hpre; reflexivity |];
           intros m Hm; injection Hm as <-; injection Hc as <-;
           split; reflexivity ] ]).
Qed.

(** C6, as the code has it.  [killPort] never throws: it returns one of
    the five result objects.  [findAvailablePort] from a valid start
    port either returns a port or throws the exhausted-search error, and
    it does throw it when the start port is refused and no further
    attempt is allowed. *)
Theorem core_results :
  forall (W : Type) (E : Env W) (w : W),
    (forall platform port force,
        exists res,
          completion (run E (killPort platform port force) w) = Returned res /\
          (res = NotInUse \/ res = Cancelled \/
           exists p n, res = StillRunning p n \/ res = Resolved p n \/
                       exists m, res = Failed m p n)) /\
    (forall startPort maxAttempts,
        0 <= startPort <= 65535 ->
        let r := run E (findAvailablePort startPort maxAttempts) w in
        ((exists port, completion r = Returned port) \/
         completion r = Thrown (exhausted maxAttempts)) /\
        (maxAttempts <= 1 ->
         fst (os_listen E startPort "127.0.0.1" w) <> Listening ->
         completion r = Thrown (exhausted maxAttempts))).
Proof.
  intros W E w. split.
  - intros platform port force.
    destruct (killPort_run E platform port force w) as (res & Hc & Hk & _).
    exists res. split; [exact Hc|]. clear Hc.
    remember (trace (run E (killPort platform port force) w)) as tr eqn:Htr.
    clear Htr.
    inversion Hk as [ ? ? | ? ? ? ? ? ? ?
                    | ? ? ? ? ? ? ? ? ? K | ? ? ? ? ? ? ? K ]; subst; auto;
      inversion K; subst; eauto 10.
  - intros start max Hs. cbn zeta.
    destruct (findAvailablePort_run E start max w Hs) as [codes H].
    cbn zeta in H. split.
    + destruct H as [(Hc & _) | (Hc & _)]; eauto.
    + intros Hm Hl.
      destruct H as [(Hc & _ & Hk & _ & _) | (Hc & _)]; [|exact Hc].
      exfalso. apply Hl.
      assert (V : valid_port start = true) by (apply valid_port_iff; lia).
      destruct (os_listen E start "127.0.0.1" w) as [[|code] w'] eqn:L;
        [reflexivity|].
      unfold findAvailablePort in Hc. rewrite run_bind in Hc.
      rewrite (run_isPortAvailable_error E _ _ _ _ V L) in Hc.
      cbn [completion trace final] in Hc.
      replace (Z.to_nat (max - 1)) with 0%nat in Hc by lia.
      simpl in Hc. discriminate.
Qed.

Lemma core_results_witness :
  completion (run Sim.env (findAvailablePort 8080 1) (Sim.machine [8080]))
  = Thrown (exhausted 1).
Proof.
  refine (proj2 (proj2 (core_results Sim.World Sim.env (Sim.machine [8080]))
                   8080 1 _) _ _).
  - lia.
  - lia.
  - discriminate.
Defined.

(** C6 as stated fails for the exhausted search: with port 8080 taken
    and one attempt allowed, [findAvailablePort] returns nothing and
    throws an [Error]. *)
Lemma exhausted_search_is_thrown :
  run Sim.env (findAvailablePort 8080 1) (Sim.machine [8080]) =
  Build_Run
    (Thrown (Error "Could not find available port within 1 attempts"))
    (refused [8080] ["EADDRINUSE"])
    (Sim.machine [8080]).
Proof. reflexivity. Qed.

Lemma killPort_verifies_witness :
  exists res,
    completion (run Sim.env (killPort linux 9999 true)
                  (Sim.scripted [ExecOk Sim.ss_line; ExecOk "node";
                                 ExecOk ""; ExecOk Sim.ss_line] []))
    = Returned res /\
    res = StillRunning 4242 "node" /\
    delivered (trace (run Sim.env (killPort linux 9999 true)
                        (Sim.scripted [ExecOk Sim.ss_line; ExecOk "node";
                                       ExecOk ""; ExecOk Sim.ss_line] [])))
    = true /\
    reprobe linux (trace (run Sim.env (killPort linux 9999 true)
                            (Sim.scripted [ExecOk Sim.ss_line; ExecOk "node";
                                           ExecOk ""; ExecOk Sim.ss_line] [])))
    = Some (500, pid_command linux 9999, Some 4242).
Proof.
  destruct (killPort_verifies Sim.World Sim.env
              (Sim.scripted [ExecOk Sim.ss_line; ExecOk "node";
                             ExecOk ""; ExecOk Sim.ss_line] [])
              linux 9999 true) as (res & Hc & _ & _ & _ & _ & Hin).
  exists res. split; [exact Hc|].
  destruct (Hin 4242 eq_refl (or_introl eq_refl)) as (_ & Hterm & _).
  destruct (Hterm ltac:(discriminate) "" eq_refl) as (_ & _ & Hd & Hres).
  split; [exact Hres|]. split; [exact Hd | reflexivity].
Defined.

Lemma killPort_gate_witness :
  exists res,
    completion (run Sim.env (killPort linux 9999 false)
                  (Sim.scripted [ExecOk Sim.ss_line; ExecOk "node"] ["n"]))
    = Returned res.
Proof.
  destruct (killPort_gate Sim.World Sim.env
              (Sim.scripted [ExecOk Sim.ss_line; ExecOk "node"] ["n"])
              linux 9999 false) as (res & Hc & _).
  exists res. exact Hc.
Defined.

Lemma killPort_escalates_witness :
  exists res,
    completion (run Sim.env (killPort linux 9999 true)
                  (Sim.scripted [ExecOk Sim.ss_line; ExecOk "node";
                                 ExecFail "Command failed: kill -TERM 4242";
                                 ExecFail "Command failed: kill -9 4242"] []))
    = Returned res /\
    res = Failed "Command failed: kill -9 4242" 4242 "node" /\
    signals (trace (run Sim.env (killPort linux 9999 true)
                      (Sim.scripted
                         [ExecOk Sim.ss_line; ExecOk "node";
                          ExecFail "Command failed: kill -TERM 4242";
                          ExecFail "Command failed: kill -9 4242"] [])))
    = [(kill_TERM 4242, ExecFail "Command failed: kill -TERM 4242");
       (kill_9 4242, ExecFail "Command failed: kill -9 4242")].
Proof.
  destruct (killPort_escalates Sim.World Sim.env
              (Sim.scripted [ExecOk Sim.ss_line; ExecOk "node";
                             ExecFail "Command failed: kill -TERM 4242";
                             ExecFail "Command failed: kill -9 4242"] [])
              linux 9999 true) as (res & Hc & _ & Hin).
  exists res. split; [exact Hc|].
  destruct (Hin 4242 eq_refl (or_introl eq_refl)) as (_ & Hunix).
  destruct (Hunix ltac:(discriminate)) as (_ & Hfail).
  destruct (Hfail "Command failed: kill -TERM 4242" eq_refl) as (Hs & Hlast).
  destruct (Hlast "Command failed: kill -9 4242" eq_refl) as (Hres & _).
  split; [exact Hres | exact Hs].
Defined.

(** ** Runs on the simulated machine *)

(** A process that ignores the signal: the second probe still shows it. *)
Example killPort_still_running :
  run Sim.env (killPort linux 9999 true)
    (Sim.scripted [ExecOk Sim.ss_line; ExecOk ("node" ++ Sim.newline);
                   ExecOk ""; ExecOk Sim.ss_line] [])
  = Build_Run (Returned (StillRunning 4242 "node"))
      [EvExec "ss -tulpn | grep :9999" (ExecOk Sim.ss_line);
       EvExec "ps -p 4242 -o comm=" (ExecOk ("node" ++ Sim.newline));
       EvExec "kill -TERM 4242" (ExecOk "");
       EvTimeout 500;
       EvExec "ss -tulpn | grep :9999" (ExecOk Sim.ss_line)]
      (Sim.scripted [] []).
Proof. reflexivity. Qed.

(** The process exits: [grep] finds nothing and the command fails. *)
Example killPort_resolved :
  run Sim.env (killPort linux 9999 false)
    (Sim.scripted [ExecOk Sim.ss_line; ExecOk ("node" ++ Sim.newline);
                   ExecOk ""] ["YES"])
  = Build_Run (Returned (Resolved 4242 "node"))
      [EvExec "ss -tulpn | grep :9999" (ExecOk Sim.ss_line);
       EvExec "ps -p 4242 -o comm=" (ExecOk ("node" ++ Sim.newline));
       EvQuestion
         "Are you sure you want to kill process node (PID: 4242) on port 9999? (y/N): "
         "YES";
       EvExec "kill -TERM 4242" (ExecOk "");
       EvTimeout 500;
       EvExec "ss -tulpn | grep :9999"
         (ExecFail "Command failed: ss -tulpn | grep :9999")]
      (Sim.scripted [] []).
Proof. reflexivity. Qed.

Example killPort_cancelled :
  run Sim.env (killPort darwin 9999 false)
    (Sim.scripted [ExecOk ("4242" ++ Sim.newline); ExecFail "ps failed"]
                  ["no"])
  = Build_Run (Returned Cancelled)
      [EvExec "lsof -i :9999 -t" (ExecOk ("4242" ++ Sim.newline));
       EvExec "ps -p 4242 -o comm=" (ExecFail "ps failed");
       EvQuestion
         "Are you sure you want to kill process Unknown (PID: 4242) on port 9999? (y/N): "
         "no"]
      (Sim.scripted [] []).
Proof. reflexivity. Qed.

Example killPort_not_in_use :
  run Sim.env (killPort linux 9999 true) (Sim.scripted [] [])
  = Build_Run (Returned NotInUse)
      [EvExec "ss -tulpn | grep :9999"
         (ExecFail "Command failed: ss -tulpn | grep :9999")]
      (Sim.scripted [] []).
Proof. reflexivity. Qed.

Example killPort_failed_on_windows :
  run Sim.env (killPort win32 9999 true)
    (Sim.scripted
       [ExecOk "  TCP    0.0.0.0:9999    0.0.0.0:0    LISTENING    4242";
        ExecOk "node.exe,4242,Console,1,30000 K";
        ExecFail "Command failed: taskkill /PID 4242 /F"] [])
  = Build_Run
      (Returned (Failed "Command failed: taskkill /PID 4242 /F" 4242 "node.exe"))
      [EvExec "netstat -ano | findstr :9999 | findstr LISTENING"
         (ExecOk "  TCP    0.0.0.0:9999    0.0.0.0:0    LISTENING    4242");
       EvExec (name_command win32 4242)
         (ExecOk "node.exe,4242,Console,1,30000 K");
       EvExec "taskkill /PID 4242 /F"
         (ExecFail "Command failed: taskkill /PID 4242 /F")]
      (Sim.scripted [] []).
Proof. reflexivity. Qed.

(** The end-to-end search of the specification: 9999 taken, 10000 free. *)
Example findAvailablePort_next :
  run Sim.env (findAvailablePort 9999 100) (Sim.machine [9999])
  = Build_Run (Returned 10000)
      (refused [9999] ["EADDRINUSE"] ++ granted 10000)
      (Sim.machine [9999]).
Proof. reflexivity. Qed.

Example parseInt_samples :
  parseInt "4242" = Num 4242 /\ parseInt "  -17px" = Num (-17) /\
  parseInt "0x1F" = Num 31 /\ parseInt "0x" = NaN /\ parseInt "" = NaN /\
  parseInt "0" = Num 0 /\ parseInt ("12" ++ Sim.newline ++ "34") = Num 12.
Proof. repeat split. Qed.

Example string_samples :
  trim ("  node " ++ Sim.newline) = "node" /\
  toLowerCase "YeS" = "yes" /\
  match_pid Sim.ss_line = Some "4242" /\
  match_pid "pid=,pid=7" = Some "7" /\
  match_listening "LISTENING4242" = None /\
  split_head "," "a,b,c" = "a" /\ show (-5) = "-5".
Proof. repeat split. Qed.

(** * More of the resolver *)

(** ** [killPorts] *)

Lemma killPorts_loop_run {W : Type} (E : Env W) platform force ports :
  forall (acc : list PortResult) (w : W),
    let r := run E (killPorts_loop platform force acc ports) w in
    exists results,
      completion r = Returned (acc ++ results)%list /\
      KillRuns platform force ports (trace r) results.
Proof.
  induction ports as [|port more IH]; intros acc w; cbn zeta.
  - exists []. simpl. rewrite app_nil_r. split; [reflexivity | constructor].
  - cbn [killPorts_loop]. rewrite run_bind.
    destruct (killPort_run E platform port force w) as (res & Hc & Hk & _).
    rewrite Hc.
    destruct (IH (acc ++ [{| of_port := port; outcome := res |}])%list
                 (final (run E (killPort platform port force) w)))
      as (results & Hc' & Hk').
    cbn zeta in Hc', Hk'.
    exists ({| of_port := port; outcome := res |} :: results).
    cbn [prepend completion trace]. rewrite Hc', <- app_assoc. simpl.
    split; [reflexivity | now constructor].
Qed.

Lemma KillRuns_ports platform force ports tr results :
  KillRuns platform force ports tr results ->
  map of_port results = ports.
Proof. induction 1; simpl; congruence. Qed.

(** [killPorts] never throws and returns one result per port, in the
    order of the ports and tagged with them; its trace is the [killPort]
    traces one after the other, so a failure on one port does not stop
    the following ones. *)
Theorem killPorts_each :
  forall (W : Type) (E : Env W) (w : W)
         (platform : Platform) (ports : list Z) (force : bool),
    let r := run E (killPorts platform ports force) w in
    exists results,
      completion r = Returned results /\
      map of_port results = ports /\
      KillRuns platform force ports (trace r) results.
Proof.
  intros W E w platform ports force. cbn zeta.
  destruct (killPorts_loop_run E platform force ports [] w)
    as (results & Hc & Hk).
  exists results. split; [exact Hc|]. split; [|exact Hk].
  eapply KillRuns_ports; eauto.
Qed.

(** ** [autoResolve] *)

(** [autoResolve] never throws.  When its probe finds no owner it
    reports the port free after that single command.  Otherwise
    [killPort] runs and probes the port a second time: the result
    carries [resolved = success] and the message of [killPort], and the
    pid is the one [killPort] reports, or the one of the first probe
    when [killPort] reports none. *)
Theorem autoResolve_outcomes :
  forall (W : Type) (E : Env W) (w : W)
         (platform : Platform) (port : Z) (force : bool),
    let r := run E (autoResolve platform port force) w in
    let first := fst (os_exec E (pid_command platform port) w) in
    exists res,
      completion r = Returned res /\
      auto_port res = port /\
      (truthy (probe_answer platform first) = None ->
       res = PortFree port /\
       trace r = [EvExec (pid_command platform port) first]) /\
      (forall p,
          truthy (probe_answer platform first) = Some p ->
          exists tr kres,
            trace r = EvExec (pid_command platform port) first :: tr /\
            KillRun platform port force tr kres /\
            (exists second rest,
                tr = EvExec (pid_command platform port) second :: rest) /\
            resolved res = success kres /\
            auto_success res = Some (success kres) /\
            auto_message res = message kres /\
            auto_name res = name kres /\
            auto_pid res = Some (match pid kres with
                                 | Some q => q
                                 | None => p
                                 end)).
Proof.
  intros W E w platform port force. cbn zeta.
  unfold autoResolve. rewrite run_bind.
  destruct (os_exec E (pid_command platform port) w) as [o w1] eqn:X.
  rewrite (run_getPortPid _ _ _ _ _ _ X). cbn [completion trace final fst].
  destruct (truthy (probe_answer platform o)) as [p|] eqn:T.
  - rewrite run_bind.
    destruct (killPort_run E platform port force w1) as (kres & Hc & Hk & Hh).
    rewrite Hc. cbn [run prepend completion trace final app].
    eexists. split; [reflexivity|]. split; [reflexivity|].
    split; [discriminate|].
    intros p' Hp. injection Hp as <-.
    exists (trace (run E (killPort platform port force) w1) ++ [])%list, kres.
    rewrite app_nil_r. split; [reflexivity|]. split; [exact Hk|].
    split.
    { destruct (trace (run E (killPort platform port force) w1))
        as [|ev rest]; [discriminate|].
      injection Hh as ->. eauto. }
    cbn. repeat split. destruct (pid kres); reflexivity.
  - cbn [run prepend completion trace final app].
    eexists. split; [reflexivity|]. split; [reflexivity|].
    split; [auto | discriminate].
Qed.

(** ** [getUsedPortsInRange] *)

Section UsedPorts.
Context {W : Type} (E : Env W).

Lemma isPortAvailable_returns port w :
  valid_port port = true ->
  exists b,
    completion (run E (isPortAvailable port) w) = Returned b /\
    probes (trace (run E (isPortAvailable port) w)) = [port] /\
    refusals (trace (run E (isPortAvailable port) w))
    = (if b then [] else [port]).
Proof.
  intros Hv.
  destruct (os_listen E port "127.0.0.1" w) as [[|code] w'] eqn:L.
  - rewrite (run_isPortAvailable_listening E _ _ _ Hv L). exists true. auto.
  - rewrite (run_isPortAvailable_error E _ _ _ _ Hv L). exists false. auto.
Qed.

Lemma probes_app tr1 tr2 : probes (tr1 ++ tr2) = (probes tr1 ++ probes tr2)%list.
Proof. induction tr1 as [|[] tr1 IH]; simpl; congruence. Qed.

Lemma refusals_app tr1 tr2 :
  refusals (tr1 ++ tr2) = (refusals tr1 ++ refusals tr2)%list.
Proof.
  induction tr1 as [|[] tr1 IH]; simpl; try congruence.
  destruct o; simpl; congruence.
Qed.

Lemma used_loop_run (n : nat) :
  forall (port : Z) (acc : list Z) (w : W),
    0 <= port -> port + Z.of_nat n - 1 <= 65535 ->
    let r := run E (used_loop n port acc) w in
    exists used,
      completion r = Returned (acc ++ used)%list /\
      used = refusals (trace r) /\
      probes (trace r) = upfrom port n /\
      StronglySorted Z.lt used /\
      Forall (fun p => port <= p < port + Z.of_nat n) used.
Proof.
  induction n as [|n IH]; intros port acc w Hlo Hhi; cbn zeta.
  - exists []. simpl. rewrite app_nil_r. repeat split; constructor.
  - rewrite Nat2Z.inj_succ in *. cbn [used_loop]. rewrite run_bind.
    destruct (isPortAvailable_returns port w) as (b & Hc & Hp & Hr).
    { apply valid_port_iff; lia. }
    rewrite Hc.
    set (w1 := final (run E (isPortAvailable port) w)).
    destruct (IH (port + 1)
                 (if negb b then (acc ++ [port])%list else acc) w1)
      as (used & Hc' & Hu & Hp' & Hs & Hf); try lia.
    cbn zeta in *. cbn [prepend completion trace].
    rewrite probes_app, refusals_app, Hp, Hr, Hp', Hc', <- Hu.
    exists ((if b then [] else [port]) ++ used)%list.
    assert (Hf' : Forall (fun p => port <= p < port + Z.succ (Z.of_nat n)) used).
    { eapply Forall_impl; [|exact Hf]. simpl. intros; lia. }
    destruct b; simpl.
    + repeat split; auto.
    + rewrite <- app_assoc. simpl. repeat split; auto.
      * constructor; auto.
        eapply Forall_impl; [|exact Hf]. simpl. intros; lia.
      * constructor; auto. lia.
Qed.

Lemma used_loop_overrun (m : nat) :
  forall (n : nat) (port : Z) (acc : list Z) (w : W),
    0 <= port -> port + Z.of_nat m = 65536 -> (m < n)%nat ->
    completion (run E (used_loop n port acc) w) = Thrown ERR_SOCKET_BAD_PORT.
Proof.
  induction m as [|m IH]; intros n port acc w Hlo Hm Hn;
    (destruct n as [|n]; [lia|]); cbn [used_loop]; rewrite run_bind.
  - rewrite run_isPortAvailable_invalid; [reflexivity|].
    destruct (valid_port port) eqn:V; [|reflexivity].
    apply valid_port_iff in V. lia.
  - destruct (isPortAvailable_returns port w) as (b & Hc & _).
    { apply valid_port_iff; lia. }
    rewrite Hc. cbn [prepend completion]. apply IH; lia.
Qed.

End UsedPorts.

(** Over a range of valid ports [getUsedPortsInRange] never throws: it
    probes [start], [start + 1], ..., [finish] in that order and returns
    exactly the probed ports that were refused, so the result is
    strictly increasing and lies within the range. *)
Theorem getUsedPortsInRange_refused :
  forall (W : Type) (E : Env W) (w : W) (start finish : Z),
    0 <= start -> finish <= 65535 ->
    let r := run E (getUsedPortsInRange start finish) w in
    completion r = Returned (refusals (trace r)) /\
    probes (trace r) = upfrom start (Z.to_nat (finish - start + 1)) /\
    StronglySorted Z.lt (refusals (trace r)) /\
    Forall (fun p => start <= p <= finish) (refusals (trace r)).
Proof.
  intros W E w start finish Hlo Hhi. cbn zeta. unfold getUsedPortsInRange.
  destruct (Z.lt_ge_cases finish start) as [Hempty|Hne].
  - replace (Z.to_nat (finish - start + 1)) with 0%nat by lia.
    simpl. repeat split; constructor.
  - destruct (used_loop_run E (Z.to_nat (finish - start + 1)) start [] w)
      as (used & Hc & Hu & Hp & Hs & Hf); try lia.
    cbn zeta in *. subst used. repeat split; auto.
    eapply Forall_impl; [|exact Hf]. simpl. intros; lia.
Qed.

Lemma getUsedPortsInRange_refused_witness :
  completion (run Sim.env (getUsedPortsInRange 3000 3003)
                (Sim.machine [3001; 3003; 9999]))
  = Returned [3001; 3003].
Proof.
  refine (proj1 (getUsedPortsInRange_refused Sim.World Sim.env
                   (Sim.machine [3001; 3003; 9999]) 3000 3003 _ _)).
  - lia.
  - lia.
Defined.

(** A range that is not empty and reaches below 0 or above 65535 makes
    [getUsedPortsInRange] throw the bad-port error of [listen]; the
    ports collected before are lost. *)
Theorem getUsedPortsInRange_overrun :
  forall (W : Type) (E : Env W) (w : W) (start finish : Z),
    start <= finish ->
    start < 0 \/ 65535 < finish ->
    completion (run E (getUsedPortsInRange start finish) w)
    = Thrown ERR_SOCKET_BAD_PORT.
Proof.
  intros W E w start finish Hne Hout. unfold getUsedPortsInRange.
  destruct (valid_port start) eqn:V.
  - apply valid_port_iff in V.
    apply (used_loop_overrun E (Z.to_nat (65536 - start))); lia.
  - destruct (Z.to_nat (finish - start + 1)) as [|n] eqn:N; [lia|].
    cbn [used_loop]. rewrite run_bind.
    now rewrite run_isPortAvailable_invalid.
Qed.

Lemma getUsedPortsInRange_overrun_witness :
  completion (run Sim.env (getUsedPortsInRange 65535 65536)
                (Sim.machine [65535]))
  = Thrown ERR_SOCKET_BAD_PORT.
Proof.
  apply (getUsedPortsInRange_overrun Sim.World Sim.env
           (Sim.machine [65535]) 65535 65536).
  - lia.
  - right. lia.
Defined.

(** ** The resolver on a machine that does not change *)

Lemma machine_probe (w : Sim.World) (port : Z) :
  0 <= port <= 65535 ->
  Sim.probing w = None ->
  completion (run Sim.env (isPortAvailable port) w) = Returned (Sim.free w port)
  /\ final (run Sim.env (isPortAvailable port) w) = w.
Proof.
  intros Hp Hn. unfold Sim.free.
  destruct (Sim.mem port (Sim.bound w)) eqn:Hb.
  - rewrite machine_busy by assumption. auto.
  - destruct (Sim.mem port (Sim.denied w)) eqn:Hd.
    + rewrite (run_isPortAvailable_error Sim.env port w "EACCES" w).
      * auto.
      * apply valid_port_iff; lia.
      * simpl. unfold Sim.listen. now rewrite Hb, Hd.
    + rewrite machine_free by assumption. auto.
Qed.

Lemma machine_search (start max : Z) (w : Sim.World) (n : nat) :
  Sim.probing w = None ->
  forall i : Z,
    0 <= start + i <= 65536 ->
    let r := run Sim.env (search_from start max n i) w in
    completion r =
    match find (Sim.free w)
               (upfrom (start + i)
                  (Nat.min n (Z.to_nat (65536 - (start + i))))) with
    | Some port => Returned port
    | None => Thrown (exhausted max)
    end /\ final r = w.
Proof.
  intros Hn. induction n as [|n IH]; intros i Hi; cbn zeta.
  - simpl. auto.
  - cbn [search_from]. destruct (Z.gtb_spec (start + i) 65535) as [Hgt|Hle].
    + replace (Z.to_nat (65536 - (start + i))) with 0%nat by lia.
      rewrite Nat.min_0_r. simpl. auto.
    + replace (Z.to_nat (65536 - (start + i)))
        with (S (Z.to_nat (65536 - (start + (i + 1))))) by lia.
      rewrite <- Nat.succ_min_distr. cbn [upfrom find].
      rewrite run_bind.
      destruct (machine_probe w (start + i) ltac:(lia) Hn) as [Hc Hf].
      rewrite Hc, Hf.
      destruct (Sim.free w (start + i)); cbn [prepend completion final run].
      * auto.
      * replace (start + i + 1) with (start + (i + 1)) by lia.
        apply IH. lia.
Qed.

(** On a machine that does not change, [findAvailablePort] from a valid
    start port returns the least port of its window that can be bound,
    throws the exhausted-search error when the window holds none, and
    leaves the machine as it found it. *)
Theorem findAvailablePort_least :
  forall (w : Sim.World) (startPort maxAttempts : Z),
    0 <= startPort <= 65535 ->
    Sim.probing w = None ->
    let r := run Sim.env (findAvailablePort startPort maxAttempts) w in
    completion r =
    match find (Sim.free w) (window startPort maxAttempts) with
    | Some port => Returned port
    | None => Thrown (exhausted maxAttempts)
    end /\ final r = w.
Proof.
  intros w start max Hs Hn. cbn zeta. unfold findAvailablePort, window.
  replace (Z.to_nat (Z.min (Z.max 1 max) (65536 - start)))
    with (S (Nat.min (Z.to_nat (max - 1)) (Z.to_nat (65536 - (start + 1)))))
    by lia.
  cbn [upfrom find]. rewrite run_bind.
  destruct (machine_probe w start Hs Hn) as [Hc Hf]. rewrite Hc, Hf.
  destruct (Sim.free w start); cbn [prepend completion final run].
  - auto.
  - apply machine_search; [assumption | lia].
Qed.

Lemma findAvailablePort_least_witness :
  completion (run Sim.env (findAvailablePort 3000 100)
                {| Sim.bound := [3000; 3002]; Sim.denied := [3001];
                   Sim.probing := None; Sim.execs := []; Sim.answers := [] |})
  = Returned 3003.
Proof.
  refine (proj1 (findAvailablePort_least
                   {| Sim.bound := [3000; 3002]; Sim.denied := [3001];
                      Sim.probing := None; Sim.execs := [];
                      Sim.answers := [] |} 3000 100 _ _)).
  - lia.
  - reflexivity.
Defined.

Lemma machine_used (w : Sim.World) (n : nat) :
  Sim.probing w = None ->
  forall (port : Z) (acc : list Z),
    0 <= port -> port + Z.of_nat n - 1 <= 65535 ->
    let r := run Sim.env (used_loop n port acc) w in
    completion r =
    Returned (acc ++ filter (fun p => negb (Sim.free w p)) (upfrom port n))%list
    /\ final r = w.
Proof.
  intros Hn. induction n as [|n IH]; intros port acc Hlo Hhi; cbn zeta.
  - simpl. rewrite app_nil_r. auto.
  - rewrite Nat2Z.inj_succ in Hhi. cbn [used_loop upfrom filter].
    rewrite run_bind.
    destruct (machine_probe w port ltac:(lia) Hn) as [Hc Hf].
    rewrite Hc, Hf. cbn [prepend completion final].
    destruct (IH (port + 1)
                 (if negb (Sim.free w port) then (acc ++ [port])%list else acc)
                 ltac:(lia) ltac:(lia)) as [Hc' Hf'].
    cbn zeta in Hc', Hf'. rewrite Hc', Hf'.
    destruct (Sim.free w port); simpl; [auto|].
    rewrite <- app_assoc. auto.
Qed.

(** On a machine that does not change, [getUsedPortsInRange] over valid
    ports returns exactly the ports of the range that cannot be bound,
    taken by another process or refused to the user alike, and leaves
    the machine as it found it. *)
Theorem getUsedPortsInRange_on_machine :
  forall (w : Sim.World) (start finish : Z),
    0 <= start -> finish <= 65535 ->
    Sim.probing w = None ->
    let r := run Sim.env (getUsedPortsInRange start finish) w in
    completion r =
    Returned (filter (fun p => negb (Sim.free w p))
                (upfrom start (Z.to_nat (finish - start + 1))))
    /\ final r = w.
Proof.
  intros w start finish Hlo Hhi Hn. cbn zeta. unfold getUsedPortsInRange.
  destruct (Z.lt_ge_cases finish start) as [Hempty|Hne].
  - replace (Z.to_nat (finish - start + 1)) with 0%nat by lia. simpl. auto.
  - apply (machine_used w _ Hn start []); lia.
Qed.

Lemma getUsedPortsInRange_on_machine_witness :
  completion (run Sim.env (getUsedPortsInRange 79 81)
                {| Sim.bound := [81]; Sim.denied := [80];
                   Sim.probing := None; Sim.execs := []; Sim.answers := [] |})
  = Returned [80; 81].
Proof.
  refine (proj1 (getUsedPortsInRange_on_machine
                   {| Sim.bound := [81]; Sim.denied := [80];
                      Sim.probing := None; Sim.execs := [];
                      Sim.answers := [] |} 79 81 _ _ _)).
  - lia.
  - lia.
  - reflexivity.
Defined.

(** ** Numbers written and read back *)

(** One step of [read_digits] on a known character. *)
Ltac read_digit :=
  cbn [read_digits];
  match goal with
  | |- context [digit_value ?c] =>
      let v := eval vm_compute in (digit_value c) in
      change (digit_value c) with v
  end;
  cbv iota beta;
  match goal with
  | |- context [?a <? 10] =>
      let v := eval vm_compute in (a <? 10) in
      change (a <? 10) with v
  end;
  cbv iota beta.

Lemma read_digits_acc (d : Decimal.uint) :
  forall acc : positive,
    read_digits 10 (Some (Z.pos acc)) (NilEmpty.string_of_uint d)
    = Some (Z.pos (Pos.of_uint_acc d acc)).
Proof.
  induction d; intros acc; cbn [NilEmpty.string_of_uint Pos.of_uint_acc];
    [reflexivity | ..];
    read_digit; rewrite <- IHd; do 2 f_equal; lia.
Qed.

Lemma read_digits_zero (d : Decimal.uint) :
  read_digits 10 (Some 0) (NilEmpty.string_of_uint d)
  = Some (Z.of_N (Pos.of_uint d)).
Proof.
  induction d; cbn [NilEmpty.string_of_uint Pos.of_uint];
    [reflexivity | ..];
    read_digit; first [ exact IHd | apply read_digits_acc ].
Qed.

Lemma read_digits_none (d : Decimal.uint) :
  d <> Decimal.Nil ->
  read_digits 10 None (NilEmpty.string_of_uint d)
  = Some (Z.of_N (Pos.of_uint d)).
Proof.
  destruct d; intros Hd; [contradiction | ..];
    cbn [NilEmpty.string_of_uint Pos.of_uint];
    read_digit; first [ apply read_digits_zero | apply read_digits_acc ].
Qed.

Lemma parseInt_uint (d : Decimal.uint) :
  d <> Decimal.Nil ->
  parseInt (NilEmpty.string_of_uint d) = Num (Z.of_N (Pos.of_uint d)) /\
  parseInt (String "-" (NilEmpty.string_of_uint d))
  = Num (- Z.of_N (Pos.of_uint d)).
Proof.
  intros Hd. pose proof (read_digits_none d Hd) as R.
  destruct d as [|d|d|d|d|d|d|d|d|d|d]; [contradiction | ..];
    try (unfold parseInt; cbn [NilEmpty.string_of_uint] in *;
         cbn -[read_digits Z.mul Z.opp]; rewrite R;
         split; f_equal; cbn [Pos.of_uint Z.of_N]; lia).
  destruct d as [|d|d|d|d|d|d|d|d|d|d];
    unfold parseInt; cbn [NilEmpty.string_of_uint] in *;
    cbn -[read_digits Z.mul Z.opp]; rewrite R;
    split; f_equal; cbn [Pos.of_uint Z.of_N]; lia.
Qed.

(** An integer written into a command or a key with a template literal
    and read back with [parseInt] is the same integer. *)
Theorem parseInt_show :
  forall z : Z, parseInt (show z) = Num z.
Proof.
  intros [|p|p]; unfold show; cbn [Z.to_int NilZero.string_of_int].
  - reflexivity.
  - pose proof (DecimalPos.Unsigned.to_uint_nonnil p) as Hn.
    unfold NilZero.string_of_uint.
    destruct (Pos.to_uint p) eqn:Hd; [contradiction | ..];
      rewrite <- Hd; rewrite <- Hd in Hn;
      rewrite (proj1 (parseInt_uint _ Hn));
      now rewrite DecimalPos.Unsigned.of_to.
  - pose proof (DecimalPos.Unsigned.to_uint_nonnil p) as Hn.
    unfold NilZero.string_of_uint.
    destruct (Pos.to_uint p) eqn:Hd; [contradiction | ..];
      rewrite <- Hd; rewrite <- Hd in Hn;
      rewrite (proj2 (parseInt_uint _ Hn));
      now rewrite DecimalPos.Unsigned.of_to.
Qed.

(** ** The confirmation prompt *)

Lemma lower_char_y c : lower_char c = "y"%char -> c = "y"%char \/ c = "Y"%char.
Proof.
  destruct c as [[] [] [] [] [] [] [] []]; vm_compute; intros H;
    solve [discriminate H | auto].
Qed.

Lemma lower_char_e c : lower_char c = "e"%char -> c = "e"%char \/ c = "E"%char.
Proof.
  destruct c as [[] [] [] [] [] [] [] []]; vm_compute; intros H;
    solve [discriminate H | auto].
Qed.

Lemma lower_char_s c : lower_char c = "s"%char -> c = "s"%char \/ c = "S"%char.
Proof.
  destruct c as [[] [] [] [] [] [] [] []]; vm_compute; intros H;
    solve [discriminate H | auto].
Qed.

Lemma confirms_accepted (a : string) :
  confirms a = true <-> In a accepted.
Proof.
  split.
  - unfold confirms. rewrite orb_true_iff, !String.eqb_eq.
    intros [H|H].
    + destruct a as [|c [|c2 a]]; try discriminate H.
      simpl in H. injection H as H.
      destruct (lower_char_y c H) as [-> | ->]; simpl; auto.
    + destruct a as [|c1 [|c2 [|c3 [|c4 a]]]]; try discriminate H.
      simpl in H. injection H as H1 H2 H3.
      destruct (lower_char_y c1 H1) as [-> | ->];
        destruct (lower_char_e c2 H2) as [-> | ->];
        destruct (lower_char_s c3 H3) as [-> | ->]; simpl; auto 12.
  - intros H. simpl in H.
    repeat (destruct H as [<- | H]; [reflexivity|]). contradiction.
Qed.

(** [askConfirmation] asks once, never throws, and answers [true] for
    exactly ten typed answers: [y] and [yes] in any mix of upper and
    lower case.  An answer with a space around it, or any other word,
    is a no. *)
Theorem askConfirmation_accepts :
  forall (W : Type) (E : Env W) (w : W) (query : string),
    let r := run E (askConfirmation query) w in
    let typed := fst (os_question E query w) in
    trace r = [EvQuestion query typed] /\
    (exists b, completion r = Returned b) /\
    (completion r = Returned true <-> In typed accepted).
Proof.
  intros W E w query. cbn zeta.
  destruct (os_question E query w) as [a w'] eqn:Q.
  rewrite (run_askConfirmation E _ _ _ _ Q). cbn [completion trace fst].
  split; [reflexivity|]. split; [eauto|].
  rewrite <- confirms_accepted. split.
  - intros H. now injection H.
  - intros ->. reflexivity.
Qed.

(** ** Where a framework port can come from *)

(** A port returned by [findPortForFramework] is one of the ports the
    lookup preferred for that name, or it lies between 3000 and 65535. *)
Theorem findPortForFramework_range :
  forall (W : Type) (E : Env W) (w : W) (framework : string) (port : Z),
    completion (run E (findPortForFramework framework) w) = Returned port ->
    (exists ports, preferred framework = PortArray ports /\ In port ports)
    \/ 3000 <= port <= 65535.
Proof.
  intros W E w framework port Hr.
  unfold findPortForFramework in Hr.
  destruct (preferred framework) as [|ports|key] eqn:P;
    try discriminate Hr.
  assert (Hv : Forall (fun q => valid_port q = true) ports).
  { unfold preferred, get_property in P.
    destruct (own_property getFrameworkSuggestions framework) as [l|] eqn:O.
    - injection P as <-.
      now apply (own_property_valid getFrameworkSuggestions eq_refl framework).
    - destruct (existsb (String.eqb framework) object_prototype_keys);
        [discriminate P|].
      injection P as <-. repeat constructor. }
  destruct (first_available_run E ports
              (findAvailablePort 3000 default_maxAttempts) Hv w)
    as [codes [(tried & q & more & Hp & _ & Hc & _) | (_ & Hrun)]].
  - rewrite Hc in Hr. injection Hr as <-. left. exists ports.
    split; [reflexivity|]. subst ports. apply in_or_app. right. apply in_eq.
  - right. rewrite Hrun in Hr. cbn [prepend completion] in Hr.
    destruct (findAvailablePort_run E 3000 default_maxAttempts
                (after_refusals E ports w) ltac:(lia)) as [cs H].
    cbn zeta in H.
    destruct H as [(Hc & _ & _ & Hb & _) | (Hc & _)]; rewrite Hc in Hr.
    + assert (Hq : port = 3000 + Z.of_nat (List.length cs)) by congruence.
      lia.
    + discriminate Hr.
Qed.

Lemma findPortForFramework_range_witness :
  (exists ports, preferred "Hugo" = PortArray ports /\ In 1314 ports)
  \/ 3000 <= 1314 <= 65535.
Proof.
  apply (findPortForFramework_range Sim.World Sim.env (Sim.machine [1313])
           "Hugo" 1314).
  reflexivity.
Defined.

(** * The scanner *)

(** ** Digits *)

Lemma take_while_all p s : all_chars p (take_while p s).
Proof.
  induction s as [|c t IH]; simpl; [exact I|].
  destruct (p c) eqn:Hp; simpl; auto.
Qed.

Lemma digits1_spec r d :
  digits1 r = Some d -> d <> EmptyString /\ all_chars is_digit d.
Proof.
  unfold digits1. pose proof (take_while_all is_digit r) as H.
  destruct (take_while is_digit r) as [|c t]; [discriminate|].
  intros E. injection E as <-. split; [discriminate | exact H].
Qed.

Lemma search_some {A} (m : string -> option A) s a :
  search m s = Some a -> exists t, m t = Some a.
Proof.
  induction s as [|c t IH]; simpl.
  - destruct (m EmptyString) eqn:M; [|discriminate].
    intros E. injection E as <-. eauto.
  - destruct (m (String c t)) eqn:M.
    + intros E. injection E as <-. eauto.
    + exact IH.
Qed.

Lemma match_port_end_digits s d :
  match_port_end s = Some d -> d <> EmptyString /\ all_chars is_digit d.
Proof.
  intros H. apply search_some in H as [t H].
  destruct (strip_prefix ":" t) as [r|]; [|discriminate].
  destruct (drop_while is_digit r); [|discriminate].
  now apply digits1_spec in H.
Qed.

Lemma match_listen_port_digits s d :
  match_listen_port s = Some d -> d <> EmptyString /\ all_chars is_digit d.
Proof.
  intros H. apply search_some in H as [t H].
  destruct (strip_prefix ":" t) as [r|]; [|discriminate].
  destruct (digits1 r) as [d'|] eqn:D; [|discriminate].
  destruct (strip_prefix "(LISTEN)" _); [|discriminate].
  injection H as <-. now apply digits1_spec in D.
Qed.

Lemma digit_value_nonneg c v : digit_value c = Some v -> 0 <= v.
Proof.
  unfold digit_value.
  destruct ((48 <=? code c)%N && (code c <=? 57)%N) eqn:H1.
  - apply andb_true_iff in H1 as [H1 _]. apply N.leb_le in H1.
    intros E. injection E as <-. lia.
  - destruct ((97 <=? code c)%N && (code c <=? 102)%N) eqn:H2.
    + apply andb_true_iff in H2 as [H2 _]. apply N.leb_le in H2.
      intros E. injection E as <-. lia.
    + destruct ((65 <=? code c)%N && (code c <=? 70)%N) eqn:H3;
        [|discriminate].
      apply andb_true_iff in H3 as [H3 _]. apply N.leb_le in H3.
      intros E. injection E as <-. lia.
Qed.

Lemma read_digits_nonneg s :
  forall a, 0 <= a ->
            exists r, read_digits 10 (Some a) s = Some r /\ 0 <= r.
Proof.
  induction s as [|c t IH]; intros a Ha; simpl; [eauto|].
  destruct (digit_value c) as [v|] eqn:V; [|eauto].
  apply digit_value_nonneg in V.
  destruct (v <? 10); [|eauto]. apply IH. lia.
Qed.

Lemma parseInt_digits d :
  d <> EmptyString -> all_chars is_digit d ->
  exists z, parseInt d = Num z /\ 0 <= z.
Proof.
  intros Hne Hd. destruct d as [|c d]; [contradiction|].
  destruct Hd as [Hc Hd].
  assert (Step : forall k t, 0 <= k ->
             exists r, read_digits 10 (Some k) t = Some r /\ 0 <= r)
    by (intros; now apply read_digits_nonneg).
  destruct c as [[] [] [] [] [] [] [] []]; try discriminate Hc; clear Hc;
    (destruct d as [|c2 d2];
     [ | destruct Hd as [Hc2 Hd2];
         destruct c2 as [[] [] [] [] [] [] [] []];
         try discriminate Hc2; clear Hc2 ]);
    unfold parseInt; cbn -[read_digits Z.mul]; repeat read_digit;
    cbn [read_digits];
    try match goal with
        | |- context [read_digits 10 (Some ?k) ?t] =>
            destruct (Step k t ltac:(lia)) as (r & -> & Hr)
        end;
    eexists; (split; [reflexivity | lia]).
Qed.

(** ** Lines, duplicates and order *)

Section Scanner.
Import PortScanner.

Lemma parse_line_numbered platform line e :
  In e (parse_line platform line) -> numbered e.
Proof.
  destruct platform; simpl parse_line.
  - unfold parse_win32.
    destruct ((5 <=? _)%nat && _); [|contradiction].
    destruct (match_port_end _) as [d|] eqn:M; [|contradiction].
    destruct (negb _ && negb _ && _); [|contradiction].
    intros [<-|[]]. simpl.
    apply match_port_end_digits in M as [Hn Hd].
    now apply parseInt_digits.
  - unfold parse_darwin.
    destruct (9 <=? _)%nat; [|contradiction].
    destruct (match_listen_port _) as [d|] eqn:M; [|contradiction].
    intros [<-|[]]. simpl.
    apply match_listen_port_digits in M as [Hn Hd].
    now apply parseInt_digits.
  - unfold parse_linux.
    destruct (5 <=? _)%nat; [|contradiction].
    destruct (match_port_end _) as [d|] eqn:M; [|contradiction].
    intros [<-|[]]. simpl.
    apply match_port_end_digits in M as [Hn Hd].
    now apply parseInt_digits.
Qed.

Lemma unique_spec (l : list PortInfo) :
  forall seen,
    NoDup (map key (unique seen l)) /\
    (forall e, In e (unique seen l) ->
               In e l /\ ~ In (key e) seen) /\
    (forall e, In e l ->
               In (key e) seen \/
               exists e', In e' (unique seen l) /\ key e' = key e).
Proof.
  induction l as [|p l IH]; intros seen; simpl.
  - split; [constructor|]. split; [contradiction | contradiction].
  - destruct (existsb (String.eqb (key p)) seen) eqn:S.
    + destruct (IH seen) as (Hn & Hs & Hc). split; [exact Hn|]. split.
      * intros e He. destruct (Hs e He). auto.
      * intros e [<-|He]; [|auto].
        left. apply existsb_exists in S as (k & Hk & E).
        apply String.eqb_eq in E. now subst.
    + destruct (IH (key p :: seen)) as (Hn & Hs & Hc).
      assert (Hout : ~ In (key p) seen).
      { intros Hin. apply not_true_iff_false in S. apply S.
        apply existsb_exists. exists (key p). split; [exact Hin|].
        apply String.eqb_refl. }
      split; [|split].
      * simpl. constructor; [|exact Hn].
        intros Hin. apply in_map_iff in Hin as (e & Ek & He).
        destruct (Hs e He) as [_ Hno]. apply Hno. left. now symmetry.
      * intros e [<-|He]; [auto|].
        destruct (Hs e He) as [Hin Hno]. split; [auto|].
        intros H. apply Hno. now right.
      * intros e [<-|He].
        -- right. exists p. split; [now left | reflexivity].
        -- destruct (Hc e He) as [[Hk|Hk] | (e' & He' & Hk)].
           ++ right. exists p. split; [now left | exact Hk].
           ++ now left.
           ++ right. exists e'. split; [now right | exact Hk].
Qed.

Lemma insert_sorted_perm p l : Permutation (insert_sorted p l) (p :: l).
Proof.
  induction l as [|q l IH]; simpl; [reflexivity|].
  destruct (compare_ports p q <=? 0); [reflexivity|].
  rewrite IH. apply perm_swap.
Qed.

Lemma sort_by_port_perm l : Permutation (sort_by_port l) l.
Proof.
  induction l as [|p l IH]; simpl; [reflexivity|].
  rewrite insert_sorted_perm. now constructor.
Qed.

Lemma compare_ports_le a b :
  numbered a -> numbered b ->
  (compare_ports a b <= 0 <-> port_le a b).
Proof.
  intros (x & Hx & _) (y & Hy & _).
  unfold compare_ports, port_le, port_number. rewrite Hx, Hy. lia.
Qed.

Lemma insert_sorted_sorted p l :
  numbered p -> Forall numbered l ->
  Sorted port_le l -> Sorted port_le (insert_sorted p l).
Proof.
  intros Hp Hl Hs. induction Hs as [|q l Hs IH Hd]; simpl.
  - repeat constructor.
  - apply Forall_cons_iff in Hl as [Hq Hl].
    destruct (Z.leb_spec (compare_ports p q) 0) as [Hle|Hgt].
    + constructor; [now constructor|]. constructor.
      now apply compare_ports_le.
    + constructor; [now apply IH|].
      assert (Hqp : port_le q p).
      { destruct Hp as (x & Hx & _), Hq as (y & Hy & _).
        unfold compare_ports in Hgt. unfold port_le, port_number.
        rewrite Hx, Hy in *. lia. }
      destruct l as [|r l]; simpl; [now constructor|].
      destruct (compare_ports p r <=? 0); constructor; auto.
      now inversion Hd.
Qed.

Lemma sort_by_port_sorted l :
  Forall numbered l -> Sorted port_le (sort_by_port l).
Proof.
  induction l as [|p l IH]; intros Hl; simpl; [constructor|].
  apply Forall_cons_iff in Hl as [Hp Hl].
  apply insert_sorted_sorted; auto.
  eapply Permutation_Forall; [|exact Hl].
  symmetry. apply sort_by_port_perm.
Qed.

Lemma parsed_numbered platform lines :
  Forall numbered (flat_map (parse_line platform) lines).
Proof.
  apply Forall_forall. intros e He.
  apply in_flat_map in He as (line & _ & He).
  now apply parse_line_numbered in He.
Qed.

Lemma unique_numbered seen l :
  Forall numbered l -> Forall numbered (unique seen l).
Proof.
  rewrite !Forall_forall. intros H e He.
  apply H. now apply (unique_spec l seen).
Qed.

End Scanner.

(** Whatever the command printed, on every platform, the entries of
    [parseNetstatOutput] carry a port that is a number, not negative,
    and they come in ascending order of port. *)
Theorem parseNetstatOutput_sorted :
  forall (platform : Platform) (output : string),
    let entries := PortScanner.parseNetstatOutput platform output in
    Forall (fun e => exists z, PortScanner.port e = Num z /\ 0 <= z) entries /\
    StronglySorted
      (fun a b => PortScanner.port_number a <= PortScanner.port_number b)
      entries.
Proof.
  intros platform output. cbn zeta. unfold PortScanner.parseNetstatOutput.
  set (lines := split_on _ _).
  assert (Hu : Forall PortScanner.numbered
                 (PortScanner.unique []
                    (flat_map (PortScanner.parse_line platform) lines))).
  { apply unique_numbered, parsed_numbered. }
  split.
  - eapply Permutation_Forall; [|exact Hu].
    symmetry. apply sort_by_port_perm.
  - apply Sorted_StronglySorted.
    + intros a b c. unfold PortScanner.port_le. lia.
    + now apply sort_by_port_sorted.
Qed.

(** No two entries of [parseNetstatOutput] have the same port and the
    same pid; every line that parses is represented by an entry with
    its key, and every entry was parsed from a line of the output. *)
Theorem parseNetstatOutput_unique :
  forall (platform : Platform) (output : string),
    let lines := split_on (ascii_of_N 10) (trim output) in
    let entries := PortScanner.parseNetstatOutput platform output in
    NoDup (map (fun e => (PortScanner.port e, PortScanner.pid e)) entries) /\
    (forall e, In e entries ->
               exists line, In line lines /\
                            In e (PortScanner.parse_line platform line)) /\
    (forall line e,
        In line lines -> In e (PortScanner.parse_line platform line) ->
        exists e', In e' entries /\ PortScanner.key e' = PortScanner.key e).
Proof.
  intros platform output. cbn zeta. unfold PortScanner.parseNetstatOutput.
  set (lines := split_on _ _).
  set (raw := flat_map (PortScanner.parse_line platform) lines).
  destruct (unique_spec raw []) as (Hn & Hs & Hc).
  pose proof (sort_by_port_perm (PortScanner.unique [] raw)) as P.
  split; [|split].
  - apply (NoDup_map_inv
             (fun pr => show_number (fst pr) ++ "-" ++ show_number (snd pr))%string).
    rewrite map_map.
    eapply Permutation_NoDup; [|exact Hn].
    symmetry. now apply Permutation_map.
  - intros e He. apply (Permutation_in _ P) in He.
    destruct (Hs e He) as [Hin _].
    apply in_flat_map in Hin as (line & Hl & Hp). eauto.
  - intros line e Hl He.
    assert (Hraw : In e raw) by (apply in_flat_map; eauto).
    destruct (Hc e Hraw) as [[] | (e' & He' & Hk)].
    exists e'. split; [|exact Hk].
    apply (Permutation_in _ (Permutation_sym P)). exact He'.
Qed.

Lemma parseNetstatOutput_from_line platform output e :
  In e (PortScanner.parseNetstatOutput platform output) ->
  exists line, In e (PortScanner.parse_line platform line).
Proof.
  intros He. unfold PortScanner.parseNetstatOutput in He.
  apply (Permutation_in _ (sort_by_port_perm _)) in He.
  apply (unique_spec _ []) in He as [He _].
  apply in_flat_map in He as (line & _ & He). eauto.
Qed.

(** On Windows every entry has a positive pid, protocol [TCP], state
    [LISTENING] and no command; on Linux every entry has a command and
    a pid that is a number and not negative, 0 standing for a line that
    shows no pid. *)
Theorem parseNetstatOutput_pids :
  forall (output : string) (e : PortScanner.PortInfo),
    (In e (PortScanner.parseNetstatOutput win32 output) ->
     (exists q, PortScanner.pid e = Num q /\ 0 < q) /\
     PortScanner.protocol e = "TCP" /\
     PortScanner.state e = "LISTENING" /\
     PortScanner.command e = None) /\
    (In e (PortScanner.parseNetstatOutput linux output) ->
     (exists q, PortScanner.pid e = Num q /\ 0 <= q) /\
     exists c, PortScanner.command e = Some c).
Proof.
  intros output e. split; intros He;
    apply parseNetstatOutput_from_line in He as (line & He);
    simpl in He.
  - unfold PortScanner.parse_win32 in He.
    destruct ((5 <=? _)%nat && _); [|contradiction].
    destruct (match_port_end _) as [d|]; [|contradiction].
    destruct (negb _ && negb _ && positive_number _) eqn:C; [|contradiction].
    destruct He as [<-|[]]. simpl.
    apply andb_true_iff in C as [_ C].
    destruct (parseInt (nth 4 _ _)) as [|q]; [discriminate|].
    simpl in C. apply Z.ltb_lt in C. repeat split; eauto.
  - unfold PortScanner.parse_linux in He.
    destruct (5 <=? _)%nat; [|contradiction].
    destruct (match_port_end _) as [d|]; [|contradiction].
    destruct He as [<-|[]]. simpl. split; [|eauto].
    destruct (match_pid line) as [q|] eqn:M.
    + apply search_some in M as [t M].
      destruct (strip_prefix "pid=" t) as [r|]; [|discriminate].
      apply digits1_spec in M as [Hn Hd].
      destruct (parseInt_digits q Hn Hd) as (z & -> & Hz). eauto.
    + exists 0. split; [reflexivity | lia].
Qed.

Lemma parseNetstatOutput_pids_witness :
  (exists q,
      PortScanner.pid
        {| PortScanner.port := Num 3000; PortScanner.pid := Num 12345;
           PortScanner.protocol := "TCP"; PortScanner.address := "0.0.0.0";
           PortScanner.command := None; PortScanner.state := "LISTENING" |}
      = Num q /\ 0 < q).
Proof.
  refine (proj1 (proj1 (parseNetstatOutput_pids
            "  TCP    0.0.0.0:3000    0.0.0.0:0    LISTENING    12345"
            {| PortScanner.port := Num 3000; PortScanner.pid := Num 12345;
               PortScanner.protocol := "TCP"; PortScanner.address := "0.0.0.0";
               PortScanner.command := None;
               PortScanner.state := "LISTENING" |}) _)).
  vm_compute. left. reflexivity.
Defined.

(** [scanPort] runs the one listing command of the platform and keeps
    the entries whose port is the one asked for; it gives what
    [scanRange] gives for the range from that port to itself. *)
Theorem scanPort_exact :
  forall (W : Type) (os : string -> W -> PortScanner.ExecResult * W) (w : W)
         (platform : Platform) (n : Z),
    PortScanner.scan os (PortScanner.scanPort platform n) w
    = PortScanner.scan os (PortScanner.scanRange platform n n) w /\
    snd (fst (PortScanner.scan os (PortScanner.scanPort platform n) w))
    = [(PortScanner.active_command platform,
        fst (os (PortScanner.active_command platform) w))] /\
    Forall (fun e => PortScanner.port e = Num n)
      (fst (fst (PortScanner.scan os (PortScanner.scanPort platform n) w))).
Proof.
  intros W os w platform n.
  assert (F : forall l,
             filter (PortScanner.port_is n) l
             = filter (PortScanner.port_within n n) l).
  { intros l. apply filter_ext. intros e.
    unfold PortScanner.port_is, PortScanner.port_within.
    destruct (PortScanner.port e) as [|z]; [reflexivity|].
    destruct (Z.eqb_spec z n), (Z.leb_spec n z), (Z.leb_spec z n);
      simpl; (reflexivity || lia). }
  unfold PortScanner.scanPort, PortScanner.scanRange,
    PortScanner.getActivePorts, PortScanner.executeCommand.
  simpl.
  destruct (os (PortScanner.active_command platform) w) as [[out|[out|]] w'];
    simpl; rewrite F; (split; [reflexivity|]); (split; [reflexivity|]);
    rewrite <- F; apply Forall_forall; intros e He;
    apply filter_In in He as [_ He]; unfold PortScanner.port_is in He;
    (destruct (PortScanner.port e) as [|z]; [discriminate|]);
    apply Z.eqb_eq in He; now subst.
Qed.

(** When the listing command prints nothing but white space, or fails
    with such an output or with none at all, as [grep] does when no
    line matches, [getActivePorts] returns the empty list. *)
Theorem getActivePorts_blank :
  forall (W : Type) (os : string -> W -> PortScanner.ExecResult * W) (w : W)
         (platform : Platform),
    let answer := fst (os (PortScanner.active_command platform) w) in
    (answer = PortScanner.Rejects None \/
     exists out,
       (answer = PortScanner.Resolves out \/
        answer = PortScanner.Rejects (Some out)) /\
       trim out = EmptyString) ->
    fst (fst (PortScanner.scan os (PortScanner.getActivePorts platform) w))
    = [].
Proof.
  intros W os w platform. cbn zeta.
  assert (B : forall out, trim out = EmptyString ->
                          PortScanner.parseNetstatOutput platform out = []).
  { intros out Ht. unfold PortScanner.parseNetstatOutput. rewrite Ht.
    destruct platform; reflexivity. }
  unfold PortScanner.getActivePorts, PortScanner.executeCommand. simpl.
  destruct (os (PortScanner.active_command platform) w) as [a w']. simpl.
  intros [-> | (out & [-> | ->] & Ht)]; simpl; auto.
Qed.

Lemma getActivePorts_blank_witness :
  fst (fst (PortScanner.scan
              (fun (c : string) (w : unit) => (PortScanner.Rejects None, w))
              (PortScanner.getActivePorts linux) tt))
  = [].
Proof.
  apply (getActivePorts_blank unit
           (fun (c : string) (w : unit) => (PortScanner.Rejects None, w))
           tt linux).
  left. reflexivity.
Defined.

(** * What the commands print and what the resolver reads *)

(** ** Prefixes and runs of characters *)

Lemma append_assoc (a b c : string) : (a ++ b) ++ c = a ++ b ++ c.
Proof. induction a as [|x a IH]; simpl; congruence. Qed.

Lemma append_empty (a : string) : a ++ EmptyString = a.
Proof. induction a as [|x a IH]; simpl; congruence. Qed.

Lemma length_append (a b : string) :
  String.length (a ++ b) = (String.length a + String.length b)%nat.
Proof. induction a as [|x a IH]; simpl; congruence. Qed.

Lemma all_chars_app p a b :
  all_chars p (a ++ b) <-> all_chars p a /\ all_chars p b.
Proof. induction a as [|c a IH]; simpl; tauto. Qed.

Lemma take_while_stop p a c b :
  all_chars p a -> p c = false -> take_while p (a ++ String c b) = a.
Proof.
  induction a as [|x a IH]; simpl; intros Ha Hc.
  - now rewrite Hc.
  - destruct Ha as [-> Ha]. f_equal. auto.
Qed.

Lemma take_while_whole p a : all_chars p a -> take_while p a = a.
Proof.
  induction a as [|x a IH]; simpl; [reflexivity|].
  intros [-> Ha]. f_equal. auto.
Qed.

Lemma drop_while_stop p a c b :
  all_chars p a -> p c = false ->
  drop_while p (a ++ String c b) = String c b.
Proof.
  induction a as [|x a IH]; simpl; intros Ha Hc.
  - now rewrite Hc.
  - destruct Ha as [-> Ha]. auto.
Qed.

Lemma drop_while_whole p a : all_chars p a -> drop_while p a = EmptyString.
Proof.
  induction a as [|x a IH]; simpl; [reflexivity|].
  intros [-> Ha]. auto.
Qed.

Lemma strip_prefix_app p s r : strip_prefix p s = Some r -> s = p ++ r.
Proof.
  revert s. induction p as [|a p IH]; intros s; simpl.
  - intros E. now injection E.
  - destruct s as [|b s]; [discriminate|].
    destruct (Ascii.eqb_spec a b) as [->|]; [|discriminate].
    intros E. f_equal. auto.
Qed.

Lemma strip_prefix_here p r : strip_prefix p (p ++ r) = Some r.
Proof.
  induction p as [|a p IH]; simpl; [reflexivity|].
  now rewrite Ascii.eqb_refl.
Qed.

(** A pattern whose last character occurs nowhere before it cannot match
    ahead of its first occurrence in a text free of that character. *)
Lemma strip_prefix_early init l t x :
  all_chars (other_than l) init -> all_chars (other_than l) t ->
  t <> EmptyString ->
  strip_prefix (init ++ String l EmptyString)
               (t ++ (init ++ String l EmptyString) ++ x) = None.
Proof.
  intros Hi Ht Hne.
  destruct (strip_prefix _ _) as [r|] eqn:S; [|reflexivity].
  apply strip_prefix_app in S.
  apply (f_equal (take_while (other_than l))) in S.
  assert (Hl : other_than l l = false)
    by (unfold other_than; now rewrite Ascii.eqb_refl).
  rewrite !append_assoc in S. simpl in S.
  rewrite <- append_assoc in S.
  rewrite !take_while_stop in S; auto.
  - apply (f_equal String.length) in S.
    rewrite length_append in S.
    destruct t; [contradiction | simpl in S; lia].
  - apply all_chars_app. auto.
Qed.

Lemma search_skip {A} (m : string -> option A) pre s :
  (forall t, t <> EmptyString -> (exists u, pre = u ++ t) -> m (t ++ s) = None) ->
  search m (pre ++ s) = search m s.
Proof.
  induction pre as [|c pre IH]; intros H; [reflexivity|].
  assert (H1 : m (String c pre ++ s) = None).
  { apply H; [discriminate | exists EmptyString; reflexivity]. }
  simpl in *. rewrite H1.
  apply IH. intros t Hne [u ->].
  apply H; [exact Hne|]. exists (String c u). reflexivity.
Qed.

Lemma search_here {A} (m : string -> option A) s a :
  m s = Some a -> search m s = Some a.
Proof. intros H. destruct s; simpl; now rewrite H. Qed.

Lemma all_chars_suffix p u t : all_chars p (u ++ t) -> all_chars p t.
Proof. intros H. now apply all_chars_app in H. Qed.

(** ** Numbers as text *)

Lemma uint_digits d : all_chars is_digit (NilEmpty.string_of_uint d).
Proof. induction d; simpl; auto. Qed.

Lemma show_digits z :
  0 <= z -> show z <> EmptyString /\ all_chars is_digit (show z).
Proof.
  intros Hz. destruct z as [|p|p]; [| |lia].
  - split; [discriminate | simpl; auto].
  - unfold show. cbn [Z.to_int NilZero.string_of_int].
    pose proof (DecimalPos.Unsigned.to_uint_nonnil p) as Hn.
    unfold NilZero.string_of_uint.
    destruct (Pos.to_uint p) eqn:Hd; [contradiction | ..];
      rewrite <- Hd; (split; [rewrite Hd; discriminate | apply uint_digits]).
Qed.

Lemma digits1_show z rest :
  0 <= z -> stops is_digit rest -> digits1 (show z ++ rest) = Some (show z).
Proof.
  intros Hz Hr. destruct (show_digits z Hz) as [Hn Hd].
  unfold digits1.
  assert (T : take_while is_digit (show z ++ rest) = show z).
  { destruct rest as [|c rest].
    - rewrite append_empty. now apply take_while_whole.
    - now apply take_while_stop. }
  rewrite T. destruct (show z); [contradiction | reflexivity].
Qed.

(** ** The pid in the output of the listing command *)

Lemma match_pid_first pre p rest :
  all_chars (other_than "=") pre -> 0 <= p -> stops is_digit rest ->
  match_pid (pre ++ "pid=" ++ show p ++ rest) = Some (show p).
Proof.
  intros Hpre Hp Hr. unfold match_pid.
  rewrite search_skip.
  - apply search_here.
    change ("pid=" ++ show p ++ rest) with ("pid=" ++ (show p ++ rest)).
    rewrite strip_prefix_here. now apply digits1_show.
  - intros t Hne [u ->].
    assert (F : strip_prefix "pid=" (t ++ "pid=" ++ show p ++ rest) = None).
    { apply (strip_prefix_early "pid" "=" t (show p ++ rest));
        [simpl; auto | | exact Hne].
      eapply all_chars_suffix; eauto. }
    now rewrite F.
Qed.

Lemma match_listening_first pre sp p rest :
  all_chars (other_than "G") pre ->
  sp <> EmptyString -> all_chars is_space sp ->
  0 <= p -> stops is_digit rest ->
  match_listening (pre ++ "LISTENING" ++ sp ++ show p ++ rest)
  = Some (show p).
Proof.
  intros Hpre Hsp Hs Hp Hr. unfold match_listening.
  destruct (show_digits p Hp) as [Hn Hd].
  assert (Hhead : exists c b, show p ++ rest = String c b /\ is_space c = false).
  { destruct (show p) as [|c b]; [contradiction|].
    exists c, (b ++ rest). split; [reflexivity|].
    destruct Hd as [Hc _]. revert Hc.
    destruct c as [[] [] [] [] [] [] [] []]; vm_compute; congruence. }
  destruct Hhead as (c & b & Hcb & Hc).
  rewrite search_skip.
  - apply search_here.
    change ("LISTENING" ++ sp ++ show p ++ rest)
      with ("LISTENING" ++ (sp ++ show p ++ rest)).
    rewrite strip_prefix_here, Hcb.
    rewrite take_while_stop, drop_while_stop by assumption.
    rewrite <- Hcb.
    destruct sp; [contradiction|]. now apply digits1_show.
  - intros t Hne [u ->].
    assert (F : strip_prefix "LISTENING"
                  (t ++ "LISTENING" ++ sp ++ show p ++ rest) = None).
    { apply (strip_prefix_early "LISTENIN" "G" t (sp ++ show p ++ rest));
        [simpl; auto 10 | | exact Hne].
      eapply all_chars_suffix; eauto. }
    now rewrite F.
Qed.

(** On Linux, when [ss] prints a line whose text before [pid=] holds no
    [=] sign, [getPortPid] returns the pid written after it, whatever
    follows the digits.  The pid is at most 2^53, up to which the
    number [parseInt] returns is the integer written. *)
Theorem getPortPid_linux_reads :
  forall (W : Type) (E : Env W) (w : W) (port : Z)
         (pre rest : string) (p : Z),
    all_chars (other_than "=") pre -> 0 <= p <= 9007199254740992 ->
    stops is_digit rest ->
    fst (os_exec E (pid_command linux port) w)
    = ExecOk (pre ++ "pid=" ++ show p ++ rest) ->
    completion (run E (getPortPid linux port) w) = Returned (Some (Num p)).
Proof.
  intros W E w port pre rest p Hpre [Hp _] Hr Hx.
  destruct (os_exec E (pid_command linux port) w) as [o w'] eqn:X.
  cbn [fst] in Hx. subst o.
  rewrite (run_getPortPid E _ _ _ _ _ X).
  cbn [completion probe_answer parse_pid].
  rewrite match_pid_first by assumption. now rewrite parseInt_show.
Qed.

Lemma getPortPid_linux_reads_witness :
  completion (run Sim.env (getPortPid linux 9999)
                (Sim.scripted [ExecOk Sim.ss_line] []))
  = Returned (Some (Num 4242)).
Proof.
  refine (getPortPid_linux_reads Sim.World Sim.env
            (Sim.scripted [ExecOk Sim.ss_line] []) 9999
            "tcp LISTEN 0 511 *:9999 *:* users:((node," ",fd=18))" 4242
            _ _ _ _).
  - vm_compute. tauto.
  - lia.
  - reflexivity.
  - reflexivity.
Defined.

(** On Windows, when [netstat] prints a line without a [G] before the
    word [LISTENING], followed by white space and the pid,
    [getPortPid] returns that pid.  The pid is at most 2^53, up to
    which the number [parseInt] returns is the integer written. *)
Theorem getPortPid_win32_reads :
  forall (W : Type) (E : Env W) (w : W) (port : Z)
         (pre sp rest : string) (p : Z),
    all_chars (other_than "G") pre ->
    sp <> EmptyString -> all_chars is_space sp ->
    0 <= p <= 9007199254740992 -> stops is_digit rest ->
    fst (os_exec E (pid_command win32 port) w)
    = ExecOk (pre ++ "LISTENING" ++ sp ++ show p ++ rest) ->
    completion (run E (getPortPid win32 port) w) = Returned (Some (Num p)).
Proof.
  intros W E w port pre sp rest p Hpre Hsp Hs [Hp _] Hr Hx.
  destruct (os_exec E (pid_command win32 port) w) as [o w'] eqn:X.
  cbn [fst] in Hx. subst o.
  rewrite (run_getPortPid E _ _ _ _ _ X).
  cbn [completion probe_answer parse_pid].
  rewrite match_listening_first by assumption. now rewrite parseInt_show.
Qed.

Lemma getPortPid_win32_reads_witness :
  completion (run Sim.env (getPortPid win32 3000)
                (Sim.scripted
                   [ExecOk "  TCP    0.0.0.0:3000    0.0.0.0:0    LISTENING    12345"]
                   []))
  = Returned (Some (Num 12345)).
Proof.
  refine (getPortPid_win32_reads Sim.World Sim.env
            (Sim.scripted
               [ExecOk "  TCP    0.0.0.0:3000    0.0.0.0:0    LISTENING    12345"]
               []) 3000
            "  TCP    0.0.0.0:3000    0.0.0.0:0    " "    " EmptyString 12345
            _ _ _ _ _ _).
  - vm_compute. tauto.
  - discriminate.
  - vm_compute. tauto.
  - lia.
  - exact I.
  - reflexivity.
Defined.

(** ** Trimming *)

Lemma rev_string_app a b acc :
  rev_string (a ++ b) acc = rev_string b (rev_string a acc).
Proof. revert acc. induction a as [|c a IH]; simpl; auto. Qed.

Lemma rev_string_acc s acc :
  rev_string s acc = rev_string s EmptyString ++ acc.
Proof.
  revert acc. induction s as [|c s IH]; intros acc; simpl; [reflexivity|].
  rewrite IH, (IH (String c EmptyString)), append_assoc. reflexivity.
Qed.

Lemma rev_string_twice s :
  rev_string (rev_string s EmptyString) EmptyString = s.
Proof.
  induction s as [|c s IH]; simpl; [reflexivity|].
  rewrite (rev_string_acc s (String c EmptyString)), rev_string_app, IH.
  reflexivity.
Qed.

Lemma all_chars_rev p s acc :
  all_chars p s -> all_chars p acc -> all_chars p (rev_string s acc).
Proof.
  revert acc. induction s as [|c s IH]; intros acc; simpl; [auto|].
  intros [Hc Hs] Ha. apply IH; simpl; auto.
Qed.

Lemma drop_while_all_app p a b :
  all_chars p a -> drop_while p (a ++ b) = drop_while p b.
Proof.
  induction a as [|c a IH]; simpl; [reflexivity|].
  intros [-> Ha]. auto.
Qed.

Lemma drop_while_keep p s : stops p s -> drop_while p s = s.
Proof. destruct s as [|c s]; simpl; [reflexivity|]. now intros ->. Qed.

Lemma trim_end_spaces a ws :
  all_chars is_space ws -> trim_end (a ++ ws) = trim_end a.
Proof.
  intros Hw. unfold trim_end.
  rewrite rev_string_app.
  rewrite (rev_string_acc ws (rev_string a EmptyString)).
  rewrite drop_while_all_app; [reflexivity|].
  apply all_chars_rev; simpl; auto.
Qed.

Lemma length_drop_while p s :
  (String.length (drop_while p s) <= String.length s)%nat.
Proof.
  induction s as [|c s IH]; simpl; [lia|].
  destruct (p c); simpl; lia.
Qed.

Lemma length_rev_string s acc :
  String.length (rev_string s acc)
  = (String.length s + String.length acc)%nat.
Proof.
  revert acc. induction s as [|c s IH]; intros acc; simpl; [reflexivity|].
  rewrite IH. simpl. lia.
Qed.

Lemma length_trim_end s : (String.length (trim_end s) <= String.length s)%nat.
Proof.
  unfold trim_end. rewrite length_rev_string.
  pose proof (length_drop_while is_space (rev_string s EmptyString)) as H.
  rewrite length_rev_string in H. simpl in *. lia.
Qed.

(** A text that trimming leaves alone, followed by white space, trims
    back to itself. *)
Lemma trim_trailing name ws :
  trim name = name -> all_chars is_space ws -> trim (name ++ ws) = name.
Proof.
  intros Ht Hw. unfold trim in *.
  destruct name as [|c name].
  - simpl. unfold trim_start. rewrite drop_while_whole by assumption.
    reflexivity.
  - assert (Hc : is_space c = false).
    { destruct (is_space c) eqn:Hc; [|reflexivity]. exfalso.
      apply (f_equal String.length) in Ht.
      pose proof (length_trim_end (trim_start (String c name))) as L1.
      pose proof (length_drop_while is_space name) as L2.
      unfold trim_start in *. simpl in *. rewrite Hc in *. lia. }
    unfold trim_start in *. simpl in *. rewrite Hc in *.
    change (String c (name ++ ws)) with (String c name ++ ws).
    now rewrite trim_end_spaces.
Qed.

Lemma trim_whole s : all_chars not_space s -> trim s = s.
Proof.
  intros Hs. unfold trim, trim_start.
  assert (K : forall t, all_chars not_space t -> drop_while is_space t = t).
  { intros t Ht. apply drop_while_keep.
    destruct t as [|c t]; simpl; [exact I|].
    destruct Ht as [Hc _]. unfold not_space in Hc.
    now apply negb_true_iff in Hc. }
  rewrite K by assumption. unfold trim_end.
  rewrite K; [apply rev_string_twice|].
  apply all_chars_rev; simpl; auto.
Qed.

Lemma digit_not_space c : is_digit c = true -> not_space c = true.
Proof.
  destruct c as [[] [] [] [] [] [] [] []]; vm_compute; congruence.
Qed.

Lemma all_chars_impl (p q : ascii -> bool) s :
  (forall c, p c = true -> q c = true) -> all_chars p s -> all_chars q s.
Proof. intros H. induction s as [|c s IH]; simpl; intuition. Qed.

Lemma show_not_space z : all_chars not_space (show z).
Proof.
  destruct z as [|p|p].
  - simpl. auto.
  - eapply all_chars_impl; [exact digit_not_space|].
    apply show_digits. lia.
  - pose proof (show_digits (Z.pos p) ltac:(lia)) as [_ H].
    unfold show in *. cbn [Z.to_int NilZero.string_of_int] in *.
    split; [reflexivity|].
    eapply all_chars_impl; [exact digit_not_space | exact H].
Qed.

(** On macOS, when [lsof -t] prints one pid and white space after it,
    [getPortPid] returns that pid; when it prints only white space, or
    the command fails, [getPortPid] returns [null].  The pid is at most
    2^53 in absolute value, up to which the number [parseInt] returns
    is the integer written. *)
Theorem getPortPid_darwin_reads :
  forall (W : Type) (E : Env W) (w : W) (port : Z),
    let answer := fst (os_exec E (pid_command darwin port) w) in
    let r := run E (getPortPid darwin port) w in
    (forall p ws,
        - 9007199254740992 <= p <= 9007199254740992 ->
        all_chars is_space ws -> answer = ExecOk (show p ++ ws) ->
        completion r = Returned (Some (Num p))) /\
    (forall ws,
        all_chars is_space ws -> answer = ExecOk ws ->
        completion r = Returned None) /\
    (forall m, answer = ExecFail m -> completion r = Returned None).
Proof.
  intros W E w port. cbn zeta.
  destruct (os_exec E (pid_command darwin port) w) as [o w'] eqn:X.
  rewrite (run_getPortPid E _ _ _ _ _ X).
  cbn [fst completion]. split; [|split].
  - intros p ws _ Hw ->. cbn [probe_answer parse_pid].
    rewrite trim_trailing; [|apply trim_whole, show_not_space|assumption].
    rewrite parseInt_show.
    destruct (show p) eqn:S; [|reflexivity].
    pose proof (parseInt_show p) as P. rewrite S in P. discriminate P.
  - intros ws Hw ->. cbn [probe_answer parse_pid].
    assert (T : trim ws = EmptyString)
      by exact (trim_trailing EmptyString ws eq_refl Hw).
    rewrite T. reflexivity.
  - intros m ->. reflexivity.
Qed.

(** [getProcessName] never throws.  It keeps ['Unknown'] when the name
    command fails or prints only white space; on macOS and Linux, when
    [ps] prints a name without white space at its ends, followed by
    white space, it returns that name. *)
Theorem getProcessName_reads :
  forall (W : Type) (E : Env W) (w : W) (platform : Platform) (p : Z),
    let answer := fst (os_exec E (name_command platform p) w) in
    let r := run E (getProcessName platform p) w in
    (exists n, completion r = Returned n) /\
    (forall m, answer = ExecFail m -> completion r = Returned "Unknown") /\
    (forall ws,
        all_chars is_space ws -> answer = ExecOk ws ->
        completion r = Returned "Unknown") /\
    (forall name ws,
        platform <> win32 ->
        name <> EmptyString -> trim name = name -> all_chars is_space ws ->
        answer = ExecOk (name ++ ws) ->
        completion r = Returned name).
Proof.
  intros W E w platform p. cbn zeta.
  destruct (os_exec E (name_command platform p) w) as [o w'] eqn:X.
  rewrite (run_getProcessName E _ _ _ _ _ X).
  cbn [fst completion]. split; [eauto|]. split; [|split].
  - intros m ->. reflexivity.
  - intros ws Hw ->. cbn [name_answer].
    assert (T : trim ws = EmptyString)
      by exact (trim_trailing EmptyString ws eq_refl Hw).
    rewrite T. destruct platform; reflexivity.
  - intros name ws Hp Hn Ht Hw ->. cbn [name_answer].
    rewrite trim_trailing by assumption.
    destruct platform; [contradiction | |];
      (destruct name; [contradiction | reflexivity]).
Qed.

Lemma getProcessName_reads_witness :
  completion (run Sim.env (getProcessName linux 4242)
                (Sim.scripted [ExecOk ("node" ++ Sim.newline)] []))
  = Returned "node".
Proof.
  refine (proj2 (proj2 (proj2
            (getProcessName_reads Sim.World Sim.env
               (Sim.scripted [ExecOk ("node" ++ Sim.newline)] [])
               linux 4242)))
            "node" Sim.newline _ _ _ _ _).
  - discriminate.
  - discriminate.
  - reflexivity.
  - vm_compute. tauto.
  - reflexivity.
Defined.

Lemma getPortPid_darwin_reads_witness :
  completion (run Sim.env (getPortPid darwin 9999)
                (Sim.scripted [ExecOk ("4242" ++ Sim.newline)] []))
  = Returned (Some (Num 4242)).
Proof.
  refine (proj1 (getPortPid_darwin_reads Sim.World Sim.env
                   (Sim.scripted [ExecOk ("4242" ++ Sim.newline)] []) 9999)
            4242 Sim.newline _ _ _).
  - lia.
  - vm_compute. tauto.
  - reflexivity.
Defined.

(** ** A line of [ss] and the entry made of it *)

Lemma split_on_whole sep s :
  all_chars (other_than sep) s -> split_on sep s = [s].
Proof.
  induction s as [|c s IH]; simpl; [reflexivity|].
  intros [Hc Hs]. unfold other_than in Hc. apply negb_true_iff in Hc.
  rewrite Hc, IH by assumption. reflexivity.
Qed.

Lemma split_spaces_word c w s field b :
  all_chars not_space (String c w) ->
  split_spaces (String c w ++ s) field b
  = split_spaces s (rev_string (String c w) field) false.
Proof.
  revert c field b. induction w as [|d w IH]; intros c field b [Hc Hw].
  - simpl. unfold not_space in Hc. apply negb_true_iff in Hc.
    now rewrite Hc.
  - unfold not_space in Hc. apply negb_true_iff in Hc.
    change (String c (String d w) ++ s) with (String c (String d w ++ s)).
    cbn [split_spaces]. rewrite Hc.
    rewrite IH by assumption. reflexivity.
Qed.

Lemma split_spaces_skip sp c r :
  all_chars is_space sp -> not_space c = true ->
  split_spaces (sp ++ String c r) EmptyString true
  = split_spaces (String c r) EmptyString false.
Proof.
  intros Hs Hc. induction sp as [|x sp IH].
  - simpl. unfold not_space in Hc. apply negb_true_iff in Hc.
    now rewrite Hc.
  - destruct Hs as [Hx Hs]. simpl. rewrite Hx. auto.
Qed.

Lemma word_head w x :
  word w -> exists c r, w ++ x = String c r /\ not_space c = true.
Proof.
  intros [Hn Hw]. destruct w as [|c w]; [contradiction|].
  exists c, (w ++ x). split; [reflexivity | apply Hw].
Qed.

Lemma split_ws_field w sp rest :
  word w -> gap sp ->
  (exists c r, rest = String c r /\ not_space c = true) ->
  split_ws (w ++ sp ++ rest) = w :: split_ws rest.
Proof.
  intros [Hn Hw] [Hg Hs] (c & r & -> & Hc).
  destruct w as [|a w]; [contradiction|].
  destruct sp as [|x sp]; [contradiction|]. destruct Hs as [Hx Hs].
  unfold split_ws. rewrite split_spaces_word by assumption.
  simpl append. cbn [split_spaces]. rewrite Hx.
  rewrite split_spaces_skip by assumption.
  f_equal. apply (rev_string_twice (String a w)).
Qed.

Lemma split_ws_last w tail :
  word w -> stops not_space tail ->
  exists more, split_ws (w ++ tail) = w :: more.
Proof.
  intros [Hn Hw] Ht. destruct w as [|a w]; [contradiction|].
  unfold split_ws. rewrite split_spaces_word by assumption.
  pose proof (rev_string_twice (String a w)) as R.
  destruct tail as [|c t]; simpl in *.
  - rewrite R. eauto.
  - unfold not_space in Ht. apply negb_false_iff in Ht.
    rewrite Ht, R. eauto.
Qed.

Lemma drop_while_left p a c b :
  p c = false -> drop_while p (a ++ String c b) <> EmptyString.
Proof.
  intros Hc. induction a as [|x a IH]; simpl.
  - rewrite Hc. discriminate.
  - destruct (p x); [exact IH | discriminate].
Qed.

Lemma match_port_end_last addr n :
  0 <= n -> match_port_end (addr ++ ":" ++ show n) = Some (show n).
Proof.
  intros Hn. destruct (show_digits n Hn) as [Hne Hd].
  unfold match_port_end. rewrite search_skip.
  - apply search_here. cbn [append strip_prefix].
    rewrite Ascii.eqb_refl, drop_while_whole by assumption.
    pose proof (digits1_show n EmptyString Hn I) as D.
    now rewrite append_empty in D.
  - intros t Hne' _. destruct t as [|c t]; [contradiction|].
    cbn [append strip_prefix].
    destruct (Ascii.eqb ":" c); [|reflexivity].
    pose proof (drop_while_left is_digit t ":" (show n) eq_refl) as D.
    now destruct (drop_while is_digit (t ++ String ":" (show n))).
Qed.

Lemma strip_prefix_self p : strip_prefix p p = Some EmptyString.
Proof.
  pose proof (strip_prefix_here p EmptyString) as H.
  now rewrite append_empty in H.
Qed.

Lemma remove_first_last c pat addr :
  all_chars (other_than c) addr ->
  remove_first (String c pat) (addr ++ String c pat) = addr.
Proof.
  intros Ha. induction addr as [|x addr IH].
  - cbn [append remove_first]. now rewrite strip_prefix_self.
  - destruct Ha as [Hx Ha]. unfold other_than in Hx.
    apply negb_true_iff in Hx.
    cbn [append remove_first strip_prefix].
    rewrite Ascii.eqb_sym, Hx. f_equal. auto.
Qed.

(** A line in the format of [ss] (five fields, the fifth ending in a
    colon and the port), alone in the output and without white space at
    its ends, gives exactly one entry: the port is the number after the
    colon, the protocol and the state are the first two fields, the
    address is the fifth field with its first [:port] removed, which is
    the text before the colon whenever that text holds no colon, and
    the pid is 0 when the line shows none.  The port is at most 65535,
    so that the number read and the text printed for it are exact. *)
Theorem parseNetstatOutput_linux_line :
  forall (proto st rq sq addr tail s1 s2 s3 s4 : string) (n : Z),
    word proto -> word st -> word rq -> word sq ->
    all_chars not_space addr ->
    gap s1 -> gap s2 -> gap s3 -> gap s4 ->
    0 <= n <= 65535 -> stops not_space tail ->
    let line := proto ++ s1 ++ st ++ s2 ++ rq ++ s3 ++ sq ++ s4
                ++ (addr ++ ":" ++ show n) ++ tail in
    trim line = line ->
    all_chars (other_than (ascii_of_N 10)) line ->
    exists entry,
      PortScanner.parseNetstatOutput linux line = [entry] /\
      PortScanner.port entry = Num n /\
      PortScanner.protocol entry = proto /\
      PortScanner.state entry = st /\
      PortScanner.address entry
      = remove_first (":" ++ show n) (addr ++ ":" ++ show n) /\
      (all_chars (other_than ":") addr -> PortScanner.address entry = addr) /\
      (match_pid line = None -> PortScanner.pid entry = Num 0).
Proof.
  intros proto st rq sq addr tail s1 s2 s3 s4 n
         Hproto Hst Hrq Hsq Haddr G1 G2 G3 G4 [Hn _] Htail line Htrim Hnl.
  assert (Hlocal : word (addr ++ ":" ++ show n)).
  { split.
    - destruct addr; discriminate.
    - apply all_chars_app. split; [exact Haddr|]. split; [reflexivity|].
      eapply all_chars_impl; [exact digit_not_space|].
      now apply show_digits. }
  assert (Hparts : exists more,
             split_ws line
             = proto :: st :: rq :: sq :: (addr ++ ":" ++ show n) :: more).
  { destruct (split_ws_last _ tail Hlocal Htail) as [more Hlast].
    exists more. unfold line.
    rewrite split_ws_field; auto; [|apply word_head; auto].
    rewrite split_ws_field; auto; [|apply word_head; auto].
    rewrite split_ws_field; auto; [|apply word_head; auto].
    rewrite split_ws_field; auto; [|apply word_head; auto].
    now rewrite Hlast. }
  destruct Hparts as [more Hparts].
  unfold PortScanner.parseNetstatOutput.
  rewrite Htrim, split_on_whole by assumption.
  cbn [flat_map PortScanner.parse_line app].
  unfold PortScanner.parse_linux at 1.
  rewrite Htrim, Hparts. cbn [List.length Nat.leb nth].
  rewrite match_port_end_last by assumption.
  rewrite parseInt_show. cbn [show_number].
  cbn [app PortScanner.unique existsb PortScanner.sort_by_port
       PortScanner.insert_sorted].
  eexists. split; [reflexivity|]. cbn.
  repeat split.
  - intros Hc. now apply (remove_first_last ":" (show n) addr).
  - intros ->. reflexivity.
Qed.

Lemma parseNetstatOutput_linux_line_witness :
  exists entry,
    PortScanner.parseNetstatOutput linux
      "tcp LISTEN 0 511 0.0.0.0:3000 0.0.0.0:*" = [entry] /\
    PortScanner.port entry = Num 3000 /\
    PortScanner.address entry = "0.0.0.0".
Proof.
  destruct (parseNetstatOutput_linux_line
              "tcp" "LISTEN" "0" "511" "0.0.0.0" " 0.0.0.0:*"
              " " " " " " " " 3000)
    as (entry & H1 & H2 & _ & _ & _ & H3 & _).
  - split; [discriminate | vm_compute; tauto].
  - split; [discriminate | vm_compute; tauto].
  - split; [discriminate | vm_compute; tauto].
  - split; [discriminate | vm_compute; tauto].
  - vm_compute; tauto.
  - split; [discriminate | vm_compute; tauto].
  - split; [discriminate | vm_compute; tauto].
  - split; [discriminate | vm_compute; tauto].
  - split; [discriminate | vm_compute; tauto].
  - lia.
  - reflexivity.
  - reflexivity.
  - vm_compute; tauto.
  - exists entry. split; [exact H1|]. split; [exact H2|].
    apply H3. vm_compute; tauto.
Defined.

(** ** From the listing to the signal *)

(** On Linux with [force] set, when [ss] shows the pid [p] after the
    first [pid=] of its output, the first signal [killPort] sends is
    [kill -TERM p]: the process signalled is the one the listing named.
    The pid is at most 2^53, up to which the number [parseInt] returns
    is the integer written and the command shows it in plain digits. *)
Theorem killPort_linux_targets :
  forall (W : Type) (E : Env W) (w : W) (port : Z)
         (pre rest : string) (p : Z),
    all_chars (other_than "=") pre -> 0 < p <= 9007199254740992 ->
    stops is_digit rest ->
    fst (os_exec E (pid_command linux port) w)
    = ExecOk (pre ++ "pid=" ++ show p ++ rest) ->
    let r := run E (killPort linux port true) w in
    found linux (trace r) = Some p /\
    exists o more, signals (trace r) = ("kill -TERM " ++ show p, o) :: more.
Proof.
  intros W E w port pre rest p Hpre Hp Hr Hx. cbn zeta.
  destruct (killPort_run E linux port true w) as (res & _ & Hk & Hh).
  rewrite Hx in Hh.
  remember (trace (run E (killPort linux port true) w)) as tr eqn:Htr.
  clear Htr.
  assert (Hfound : forall o,
             o = ExecOk (pre ++ "pid=" ++ show p ++ rest) ->
             truthy (probe_answer linux o) = Some p).
  { intros o ->. cbn [probe_answer parse_pid].
    rewrite match_pid_first by (assumption || lia).
    rewrite parseInt_show. cbn [truthy].
    destruct (Z.eqb_spec p 0); [lia | reflexivity]. }
  kill_cases Hk; try congruence;
    injection Hh as ->;
    match goal with
    | H : truthy (probe_answer linux ?o) = _ |- _ =>
        rewrite (Hfound o eq_refl) in H
    end;
    try discriminate;
    match goal with
    | H : Some _ = Some _ |- _ => injection H as <-
    end;
    repeat rewrite app_comm_cons;
    signals_simpl; cbn [found];
    (split; [now apply Hfound | eauto]).
Qed.

Lemma killPort_linux_targets_witness :
  found linux
    (trace (run Sim.env (killPort linux 9999 true)
              (Sim.scripted [ExecOk Sim.ss_line; ExecOk "node"; ExecOk ""] [])))
  = Some 4242.
Proof.
  refine (proj1 (killPort_linux_targets Sim.World Sim.env
                   (Sim.scripted [ExecOk Sim.ss_line; ExecOk "node"; ExecOk ""] [])
                   9999 "tcp LISTEN 0 511 *:9999 *:* users:((node,"
                   ",fd=18))" 4242 _ _ _ _)).
  - vm_compute. tauto.
  - lia.
  - reflexivity.
  - reflexivity.
Defined.

Lemma autoResolve_outcomes_witness :
  exists res,
    completion (run Sim.env (autoResolve linux 9999 true)
                  (Sim.scripted [ExecOk Sim.ss_line; ExecOk Sim.ss_line;
                                 ExecOk "node"; ExecOk ""] []))
    = Returned res /\ auto_port res = 9999.
Proof.
  destruct (autoResolve_outcomes Sim.World Sim.env
              (Sim.scripted [ExecOk Sim.ss_line; ExecOk Sim.ss_line;
                             ExecOk "node"; ExecOk ""] [])
              linux 9999 true) as (res & Hc & Hp & _).
  exists res. split; [exact Hc | exact Hp].
Defined.

Lemma parseNetstatOutput_unique_witness :
  NoDup (map (fun e => (PortScanner.port e, PortScanner.pid e))
           (PortScanner.parseNetstatOutput linux
              ("tcp LISTEN 0 128 0.0.0.0:22 0.0.0.0:* pid=811" ++ Sim.newline
               ++ "tcp LISTEN 0 128 [::]:22 [::]:* pid=811"))).
Proof.
  exact (proj1 (parseNetstatOutput_unique linux
                  ("tcp LISTEN 0 128 0.0.0.0:22 0.0.0.0:* pid=811"
                   ++ Sim.newline
                   ++ "tcp LISTEN 0 128 [::]:22 [::]:* pid=811"))).
Defined.

(** ** Sample outputs *)

Example scanner_keeps_first_duplicate :
  map PortScanner.address
    (PortScanner.parseNetstatOutput linux
       ("tcp LISTEN 0 128 0.0.0.0:22 0.0.0.0:* pid=811" ++ Sim.newline
        ++ "tcp LISTEN 0 128 [::]:22 [::]:* pid=811" ++ Sim.newline
        ++ "tcp LISTEN 0 511 *:3000 *:*"))
  = ["0.0.0.0"; "*"].
Proof. reflexivity. Qed.

Example scanner_windows_line :
  PortScanner.parseNetstatOutput win32
    "  TCP    0.0.0.0:3000    0.0.0.0:0    LISTENING    12345"
  = [ {| PortScanner.port := Num 3000; PortScanner.pid := Num 12345;
         PortScanner.protocol := "TCP"; PortScanner.address := "0.0.0.0";
         PortScanner.command := None; PortScanner.state := "LISTENING" |} ].
Proof. reflexivity. Qed.

Example scanner_macos_line :
  PortScanner.parseNetstatOutput darwin
    "node 12345 user 24u IPv4 0x1234 0t0 TCP *:3000 (LISTEN)"
  = [ {| PortScanner.port := Num 3000; PortScanner.pid := Num 12345;
         PortScanner.protocol := "TCP"; PortScanner.address := "*:3000";
         PortScanner.command := Some "node";
         PortScanner.state := "LISTENING" |} ].
Proof. reflexivity. Qed.
